(** * pdf-viewer-server: a shallow embedding of [server.py]

    The server keeps two process-wide dictionaries, [sessions] and
    [pdf_cache], and a directory of rendered pages per session under
    [temp_pages/].  Every handler of [server.py] is embedded as a
    computation over that state which may raise a Python exception and which
    records the outside calls it makes (opening a PDF, rasterising a page,
    writing a file, removing a directory, emitting a Socket.IO event,
    logging).

    What lies outside the process (the clock, the random source, the files
    under [pdfs/], PyMuPDF, the PNG encoder, failures of the file system) is
    gathered in a record [world] that each handler reads.  Timestamps are
    exact numbers of seconds: the rounding of Python floats is not
    modelled.  A handler runs as one step, in one world: the clock is read
    once per step and the interleaving of the server's threads is not
    modelled. *)

From stdpp Require Import base strings gmap list pretty.
From Stdlib Require Import ZArith QArith Qround Qabs Lia.

Set Warnings "-register-all".

Local Open Scope Z_scope.

(** ** Data *)

(** A Python exception, kept as its message ([str(e)]). *)
Definition exn := string.

(** Raw bytes ([bytes] objects). *)
Definition bytes := string.

(** JSON values: the payloads handed to [emit]. *)
Inductive json :=
| JNull
| JBool (b : bool)
| JInt (z : Z)
| JStr (s : string)
| JList (l : list json)
| JObj (fields : list (string * json)).

(** The keys of a payload, in the order the dict literal lists them. *)
Definition keys (j : json) : list string :=
  match j with
  | JObj fields => fields.*1
  | _ => []
  end.

Definition get_field (k : string) (j : json) : option json :=
  match j with
  | JObj fields => snd <$> find (λ kv, bool_decide (kv.1 = k)) fields
  | _ => None
  end.

(** An opened [fitz.Document]: the handle, its [page_count] and its
    [metadata] dict ([None] when the file has none). *)
Record Document := {
  doc_handle : string;
  page_count : Z;
  doc_metadata : option (gmap string string)
}.

(** A [fitz.Page] of a document (0-based index). *)
Record Page := {
  page_doc : Document;
  page_index : Z
}.

(** A [fitz.Pixmap]: the rasterised page. *)
Record Pixmap := {
  pix_width : Z;
  pix_height : Z;
  pix_samples : bytes
}.

(** [pdf_info['metadata']] *)
Record pdf_metadata := {
  title : string;
  author : string;
  subject : string;
  creator : string;
  pages : Z
}.

(** The dict [load_pdf] builds and caches. *)
Record pdf_info := {
  document : Document;
  total_pages : Z;
  path : string;
  metadata : pdf_metadata
}.

(** The dict [render_page] returns. *)
Record page_data := {
  page_num : Z;
  width : Z;
  height : Z;
  image_data : bytes;
  image_base64 : string;
  timestamp : Z
}.

(** A value of the [sessions] dict. *)
Record session := {
  sid : string;
  current_pdf : option string;
  last_activity : Z
}.

(** The process state.  [sessions] is a Python dict read in insertion
    order, hence an association list; [pdf_cache] is only read by key;
    [temp_pages] maps a session id to the files of its directory
    [temp_pages/<session id>/]. *)
Record state := {
  sessions : list (string * session);
  pdf_cache : gmap string pdf_info;
  temp_pages : gmap string (gmap string bytes)
}.

(** The server at its first start: [sessions = {}], [pdf_cache = {}] and a
    [temp_pages/] just made.  A later start has the same empty tables, but
    [TEMP_DIR.mkdir(exist_ok=True)] keeps the directories an earlier run
    left ([restarted_state] below is such a start); the statement on the
    directories of [temp_pages/] is made from any state, not from this
    one. *)
Definition initial_state : state :=
  {| sessions := []; pdf_cache := ∅; temp_pages := ∅ |}.

Inductive log_level := INFO | ERROR.

(** The outside calls a handler makes, in order. *)
Inductive effect :=
| FitzOpen (pdf_path : string)
| LoadPage (doc : Document) (index : Z)
| GetPixmap (page : Page) (zoom : Q)
| WriteFile (session_id filename : string)
| Rmtree (session_id : string)
| Emit (event : string) (payload : json)
| Log (level : log_level) (msg : string).

(** What the handlers read from outside the process. *)
Record world := {
  now : Z;                                       (* time.time() *)
  urandom_hex : string;                          (* os.urandom(4).hex() *)
  path_exists : string → bool;                   (* os.path.exists *)
  fitz_open : string → exn + Document;           (* fitz.open *)
  load_page : Document → Z → exn + Page;         (* doc.load_page *)
  get_pixmap : Page → Q → exn + Pixmap;          (* page.get_pixmap *)
  png_encode : Pixmap → Z * Z → bytes;           (* resample, then img.save *)
  b64encode : bytes → string;                    (* base64.b64encode *)
  write_error : string → string → option exn;    (* mkdir, open or write failing *)
  rmtree_error : string → option exn             (* shutil.rmtree failing *)
}.

(** ** Computations that read and write the state, raise, and call out *)

Definition M (A : Type) : Type := state → (exn + A) * state * list effect.

Definition ret {A} (a : A) : M A := λ s, (inr a, s, []).

Definition raise {A} (e : exn) : M A := λ s, (inl e, s, []).

Definition bind {A B} (m : M A) (f : A → M B) : M B := λ s,
  match m s with
  | (inr a, s1, t1) =>
      match f a s1 with
      | (r, s2, t2) => (r, s2, t1 ++ t2)
      end
  | (inl e, s1, t1) => (inl e, s1, t1)
  end.

(** [try: body except Exception as e: handler e] *)
Definition try_except {A} (body : M A) (handler : exn → M A) : M A := λ s,
  match body s with
  | (inl e, s1, t1) =>
      match handler e s1 with
      | (r, s2, t2) => (r, s2, t1 ++ t2)
      end
  | (inr a, s1, t1) => (inr a, s1, t1)
  end.

Definition get : M state := λ s, (inr s, s, []).
Definition put (s' : state) : M unit := λ _, (inr tt, s', []).
Definition tell (e : effect) : M unit := λ s, (inr tt, s, [e]).

(** A call to the outside that may raise. *)
Definition call {A} (e : effect) (r : exn + A) : M A := λ s, (r, s, [e]).

Declare Scope m_scope.
Delimit Scope m_scope with M.
Notation "x ← y ; z" := (bind y (λ x, z))
  (at level 20, y at level 100, z at level 200, only parsing) : m_scope.
Notation "y ;; z" := (bind y (λ _, z))
  (at level 100, z at level 200, only parsing, right associativity) : m_scope.
Local Open Scope m_scope.

Definition emit (event : string) (payload : json) : M unit :=
  tell (Emit event payload).
Definition logger_info (msg : string) : M unit := tell (Log INFO msg).
Definition logger_error (msg : string) : M unit := tell (Log ERROR msg).

(** Projections of a finished run. *)
Definition result {A} (r : (exn + A) * state * list effect) : exn + A := r.1.1.
Definition final {A} (r : (exn + A) * state * list effect) : state := r.1.2.
Definition trace {A} (r : (exn + A) * state * list effect) : list effect := r.2.

(** The events emitted to the client during a run. *)
Definition emitted (t : list effect) : list (string * json) :=
  omap (λ e, match e with Emit ev p => Some (ev, p) | _ => None end) t.

Definition modify (f : state → state) : M unit := λ s, (inr tt, f s, []).

Definition set_sessions (ss : list (string * session)) (s : state) : state :=
  {| sessions := ss; pdf_cache := pdf_cache s; temp_pages := temp_pages s |}.
Definition set_pdf_cache (c : gmap string pdf_info) (s : state) : state :=
  {| sessions := sessions s; pdf_cache := c; temp_pages := temp_pages s |}.
Definition set_temp_pages (d : gmap string (gmap string bytes)) (s : state) : state :=
  {| sessions := sessions s; pdf_cache := pdf_cache s; temp_pages := d |}.

(** ** Python dicts kept in insertion order *)

(** [d[k] = v]: an existing key keeps its place, a new one goes last. *)
Fixpoint dict_set {V} (k : string) (v : V) (d : list (string * V)) : list (string * V) :=
  match d with
  | [] => [(k, v)]
  | (k', v') :: d' =>
      if decide (k' = k) then (k, v) :: d' else (k', v') :: dict_set k v d'
  end.

Definition dict_has {V} (k : string) (d : list (string * V)) : bool :=
  bool_decide (k ∈ d.*1).

Definition dict_remove {V} (k : string) (d : list (string * V)) : list (string * V) :=
  filter (λ kv, kv.1 ≠ k) d.

(** [str(PDF_DIR / f"{pdf_id}.pdf")] *)
Definition pdf_path_of (pdf_id : string) : string := "pdfs/" +:+ pdf_id +:+ ".pdf".

(** Truth value of [s.get('sid')] and of [session_data.get('current_pdf')]. *)
Definition truthy (o : option string) : bool :=
  match o with
  | Some s => negb (String.eqb s "")
  | None => false
  end.

(** [next((s for s in sessions.values() if s.get('sid')), None)]: the first
    session of the table whose [sid] is not empty, with its position (the
    handlers mutate that very object). *)
Definition find_session (ss : list (string * session)) : option (nat * (string * session)) :=
  list_find (λ kv, truthy (Some (sid kv.2)) = true) ss.

Definition with_current_pdf (p : string) (s : session) : session :=
  {| sid := sid s; current_pdf := Some p; last_activity := last_activity s |}.

(** [session_data['current_pdf'] = pdf_path] on the object found at position [i]. *)
Definition bind_current_pdf (i : nat) (p : string) : M unit :=
  modify (λ s, set_sessions (alter (prod_map id (with_current_pdf p)) i (sessions s)) s).

(** ** Pillow's [Image.thumbnail]

    The size computation of [Image.thumbnail((x, y), resample)] of Pillow, a
    library outside the repository: the image is left alone when it fits
    the box, otherwise the side that overflows most is set to the box and
    the other one is the proportional value rounded to the floor or the
    ceiling, whichever keeps the ratio closer, and never below one pixel.
    Pillow computes in floats; the quotients are exact rationals here.
    Where the floor and the ceiling are equally close the exact keys keep
    the floor, and the rounding of Pillow's float keys can pick the ceiling
    instead: the size may differ from Pillow's by one pixel there. *)

Definition round_aspect (number : Q) (key : Z → Q) : Z :=
  let lo := Qfloor number in
  let hi := Qceiling number in
  Z.max (if Qle_bool (key lo) (key hi) then lo else hi) 1.

Definition thumbnail (img : Z * Z) (size : Z * Z) : Z * Z :=
  let '(img_w, img_h) := img in
  let '(x, y) := size in
  if (img_w <=? x) && (img_h <=? y) then (img_w, img_h)
  else
    let aspect := (inject_Z img_w / inject_Z img_h)%Q in
    if Qle_bool aspect (inject_Z x / inject_Z y)%Q then
      (round_aspect (inject_Z y * aspect)%Q
         (λ n, Qabs (aspect - inject_Z n / inject_Z y))%Q, y)
    else
      (x, round_aspect (inject_Z x / aspect)%Q
            (λ n, if n =? 0 then 0%Q else Qabs (aspect - inject_Z x / inject_Z n))%Q).

(** ** PDFProcessor *)

Section Server.

Context (w : world).

Definition metadata_of (doc : Document) : pdf_metadata :=
  let metadata := default ∅ (doc_metadata doc) in
  {| title := default "Untitled" (metadata !! "title");
     author := default "Unknown" (metadata !! "author");
     subject := default "" (metadata !! "subject");
     creator := default "" (metadata !! "creator");
     pages := page_count doc |}.

Definition load_pdf (pdf_path : string) : M pdf_info :=
  try_except
    (s ← get;
     match pdf_cache s !! pdf_path with
     | Some info =>
         logger_info ("Loading PDF from cache: " +:+ pdf_path);;
         ret info
     | None =>
         doc ← call (FitzOpen pdf_path) (fitz_open w pdf_path);
         let info :=
           {| document := doc;
              total_pages := page_count doc;
              path := pdf_path;
              metadata := metadata_of doc |} in
         modify (λ s, set_pdf_cache (<[pdf_path := info]> (pdf_cache s)) s);;
         logger_info ("PDF loaded: " +:+ pdf_path +:+ " ("
                        +:+ pretty (page_count doc) +:+ " pages)");;
         ret info
     end)
    (λ e, logger_error ("Error loading PDF: " +:+ e);; raise e).

Definition is_high (quality : string) : bool := String.eqb quality "high".

Definition zoom_of (quality : string) : Q :=
  if is_high quality then 2%Q else (3 # 2)%Q.

Definition target_size_of (quality : string) : Z :=
  if is_high quality then 1024 else 768.

Definition render_page (doc : Document) (page_num : Z) (quality : string) : M page_data :=
  try_except
    (page ← call (LoadPage doc (page_num - 1)) (load_page w doc (page_num - 1));
     let zoom := zoom_of quality in
     pix ← call (GetPixmap page zoom) (get_pixmap w page zoom);
     let target_size := target_size_of quality in
     let img := thumbnail (pix_width pix, pix_height pix) (target_size, target_size) in
     let img_bytes := png_encode w pix img in
     ret {| page_num := page_num;
            width := img.1;
            height := img.2;
            image_data := img_bytes;
            image_base64 := b64encode w img_bytes;
            timestamp := now w |})
    (λ e, logger_error ("Error rendering page " +:+ pretty page_num +:+ ": " +:+ e);;
          raise e).

Definition outcome_of (o : option exn) : exn + unit :=
  match o with
  | Some e => inl e
  | None => inr tt
  end.

Definition page_filename (page_num : Z) : string :=
  "page_" +:+ pretty page_num +:+ ".png".

(** [mkdir(exist_ok=True)] makes the directory when it is missing; the file
    then replaces any earlier render of the same page. *)
Definition save_page_image (image_data : bytes) (session_id : string) (page_num : Z)
  : M string :=
  try_except
    (let filename := page_filename page_num in
     call (WriteFile session_id filename)
          (outcome_of (write_error w session_id filename));;
     modify (λ s,
       let dir := default ∅ (temp_pages s !! session_id) in
       set_temp_pages (<[session_id := <[filename := image_data]> dir]> (temp_pages s)) s);;
     ret ("/pages/" +:+ session_id +:+ "/" +:+ filename))
    (λ e, logger_error ("Error saving page image: " +:+ e);; raise e).

(** ** WebSocket event handlers *)

Record load_pdf_data := { pdfId : string }.
Record options := { quality : option string }.
Record request_page_data := { pageNum : Z; page_options : option options }.
Record preload_pages_data := { pageNums : list Z; preload_options : option options }.

(** [data.get('options', {}).get('quality', dflt)] *)
Definition quality_or (dflt : string) (o : option options) : string :=
  default dflt (o ≫= quality).

Definition metadata_json (m : pdf_metadata) : json :=
  JObj [("title", JStr (title m)); ("author", JStr (author m));
        ("subject", JStr (subject m)); ("creator", JStr (creator m));
        ("pages", JInt (pages m))].

Definition error_payload (e : exn) : json := JObj [("error", JStr e)].

Definition handle_connect : M unit :=
  let session_id := "session_" +:+ pretty (now w) +:+ "_" +:+ urandom_hex w in
  modify (λ s, set_sessions
    (dict_set session_id
       {| sid := session_id; current_pdf := None; last_activity := now w |}
       (sessions s)) s);;
  logger_info ("Client connected: " +:+ session_id);;
  emit "connected"
    (JObj [("session_id", JStr session_id);
           ("message", JStr "Connected to PDF viewer server")]).

Definition handle_disconnect : M unit :=
  logger_info "Client disconnected".

Definition handle_load_pdf (data : load_pdf_data) : M unit :=
  try_except
    (let pdf_id := pdfId data in
     let pdf_path := pdf_path_of pdf_id in
     if negb (path_exists w pdf_path) then
       emit "pdfLoaded"
         (JObj [("success", JBool false); ("error", JStr "PDF file not found")])
     else
       info ← load_pdf pdf_path;
       s ← get;
       match find_session (sessions s) with
       | Some (i, _) => bind_current_pdf i pdf_path
       | None => ret tt
       end;;
       emit "pdfLoaded"
         (JObj [("success", JBool true); ("pdfId", JStr pdf_id);
                ("totalPages", JInt (total_pages info));
                ("metadata", metadata_json (metadata info))]);;
       logger_info ("PDF loaded: " +:+ pdf_id))
    (λ e, logger_error ("Error loading PDF: " +:+ e);;
          emit "pdfLoaded" (JObj [("success", JBool false); ("error", JStr e)])).

(** The session the handlers work on and the path bound to it, when
    [not session_data or not session_data.get('current_pdf')] is false. *)
Definition bound_session (s : state) : option (session * string) :=
  match find_session (sessions s) with
  | Some (_, (_, session_data)) =>
      match current_pdf session_data with
      | Some pdf_path =>
          if truthy (Some pdf_path) then Some (session_data, pdf_path) else None
      | None => None
      end
  | None => None
  end.

Definition image_url_of (image_url : string) : string :=
  "http://localhost:5000" +:+ image_url.

(** The payload of a successful [pageData] response. *)
Definition page_data_payload (page : page_data) (image_url : string) : json :=
  JObj [("pageNum", JInt (page_num page)); ("width", JInt (width page));
        ("height", JInt (height page));
        ("imageUrl", JStr (image_url_of image_url));
        ("imageBase64", JStr (image_base64 page));
        ("timestamp", JInt (timestamp page))].

Definition handle_request_page (data : request_page_data) : M unit :=
  try_except
    (let page_num := pageNum data in
     let quality := quality_or "high" (page_options data) in
     s ← get;
     match bound_session s with
     | None => emit "pageData" (error_payload "No PDF loaded")
     | Some (session_data, pdf_path) =>
         info ← load_pdf pdf_path;
         page ← render_page (document info) page_num quality;
         let session_id := sid session_data in
         image_url ← save_page_image (image_data page) session_id page_num;
         emit "pageData" (page_data_payload page image_url);;
         logger_info ("Page " +:+ pretty page_num +:+ " rendered and sent")
     end)
    (λ e, logger_error ("Error rendering page: " +:+ e);;
          emit "pageData" (error_payload e)).

(** One entry of the [pages] list of a [pagesPreloaded] response. *)
Definition preloaded_entry (page : page_data) (image_url : string) : json :=
  JObj [("pageNum", JInt (page_num page)); ("width", JInt (width page));
        ("height", JInt (height page));
        ("imageUrl", JStr (image_url_of image_url));
        ("timestamp", JInt (timestamp page))].

(** The [for page_num in page_nums] loop; [pages] is the list built so far. *)
Fixpoint preload_loop (info : pdf_info) (session_data : session) (quality : string)
    (page_nums : list Z) (pages : list json) : M (list json) :=
  match page_nums with
  | [] => ret pages
  | page_num :: rest =>
      if (1 <=? page_num) && (page_num <=? total_pages info) then
        page ← render_page (document info) page_num quality;
        let session_id := sid session_data in
        image_url ← save_page_image (image_data page) session_id page_num;
        preload_loop info session_data quality rest
          (pages ++ [preloaded_entry page image_url])
      else
        preload_loop info session_data quality rest pages
  end.

Definition handle_preload_pages (data : preload_pages_data) : M unit :=
  try_except
    (let page_nums := pageNums data in
     let quality := quality_or "medium" (preload_options data) in
     s ← get;
     match bound_session s with
     | None => emit "pagesPreloaded" (error_payload "No PDF loaded")
     | Some (session_data, pdf_path) =>
         info ← load_pdf pdf_path;
         pages ← preload_loop info session_data quality page_nums [];
         emit "pagesPreloaded" (JObj [("pages", JList pages)]);;
         logger_info ("Preloaded " +:+ pretty (Z.of_nat (length pages)) +:+ " pages")
     end)
    (λ e, logger_error ("Error preloading pages: " +:+ e);;
          emit "pagesPreloaded" (error_payload e)).

Definition handle_ping : M unit :=
  emit "pong" (JObj [("timestamp", JInt (now w))]).

(** ** Cleanup *)

Definition timeout : Z := 30 * 60.

(** [shutil.rmtree(session_dir)]; a failure leaves the directory in place. *)
Definition rmtree (session_id : string) : M unit :=
  call (Rmtree session_id) (outcome_of (rmtree_error w session_id));;
  modify (λ s, set_temp_pages (delete session_id (temp_pages s)) s).

(** [del sessions[session_id]] *)
Definition del_session (session_id : string) : M unit :=
  s ← get;
  if dict_has session_id (sessions s) then
    modify (λ s, set_sessions (dict_remove session_id (sessions s)) s)
  else raise ("'" +:+ session_id +:+ "'").

(** The loop over [list(sessions.items())], a copy taken before the loop. *)
Fixpoint cleanup_loop (current_time : Z) (items : list (string * session)) : M unit :=
  match items with
  | [] => ret tt
  | (session_id, session_data) :: rest =>
      (if timeout <? current_time - last_activity session_data then
         s ← get;
         (if bool_decide (is_Some (temp_pages s !! session_id)) then
            rmtree session_id;;
            logger_info ("Cleaned up session: " +:+ session_id)
          else ret tt);;
         del_session session_id
       else ret tt);;
      cleanup_loop current_time rest
  end.

Definition cleanup_old_sessions : M unit :=
  try_except
    (let current_time := now w in
     s ← get;
     cleanup_loop current_time (sessions s))
    (λ e, logger_error ("Cleanup error: " +:+ e)).

(** ** The REST route that loads documents *)

(** [GET /api/pdf/<pdf_id>/info]: the JSON body and the status code. *)
Definition get_pdf_info (pdf_id : string) : M (json * Z) :=
  try_except
    (let pdf_path := pdf_path_of pdf_id in
     if negb (path_exists w pdf_path) then
       ret (JObj [("success", JBool false); ("error", JStr "PDF not found")], 404)
     else
       info ← load_pdf pdf_path;
       ret (JObj [("success", JBool true); ("id", JStr pdf_id);
                  ("total_pages", JInt (total_pages info));
                  ("metadata", metadata_json (metadata info))], 200))
    (λ e, ret (JObj [("success", JBool false); ("error", JStr e)], 500)).

End Server.

(** ** The route that serves stored pages *)

(** The body of an HTTP response: a file sent with its MIME type, or text. *)
Inductive http_body :=
| SentFile (data : bytes) (mimetype : string)
| Text (text : string).

(** [GET /pages/<session_id>/<filename>]: the body and the status code.
    [send_error] is the exception [send_file] raises, if it does. *)
Definition serve_page_image (send_error : option exn) (session_id filename : string)
  : M (http_body * Z) :=
  try_except
    (s ← get;
     match temp_pages s !! session_id ≫= (λ dir, dir !! filename) with
     | Some data =>
         match send_error with
         | Some e => raise e
         | None => ret (SentFile data "image/png", 200)
         end
     | None => ret (Text "File not found", 404)
     end)
    (λ e, logger_error ("Error serving image: " +:+ e);;
          ret (Text "Error serving image", 500)).

(** ** Runs of the server *)

(** The socket events, the periodic sweep and the one REST route that
    writes to the state ([/api/pdf/<id>/info] loads the document into the
    cache); the other routes only read. *)
Inductive event :=
| Connect
| Disconnect
| LoadPDF (data : load_pdf_data)
| RequestPage (data : request_page_data)
| PreloadPages (data : preload_pages_data)
| Ping
| Cleanup
| GetPdfInfo (pdf_id : string).

Definition handle (w : world) (ev : event) : M unit :=
  match ev with
  | Connect => handle_connect w
  | Disconnect => handle_disconnect
  | LoadPDF data => handle_load_pdf w data
  | RequestPage data => handle_request_page w data
  | PreloadPages data => handle_preload_pages w data
  | Ping => handle_ping w
  | Cleanup => cleanup_old_sessions w
  | GetPdfInfo pdf_id => _ ← get_pdf_info w pdf_id; ret tt
  end.

(** The states the server can be in: it starts with empty tables and
    handles one event after another, each in a world of its own. *)
Inductive reachable : state → Prop :=
| reachable_initial : reachable initial_state
| reachable_step s w ev :
    reachable s → reachable (final (handle w ev s)).

(** ** A sample world

    One document, [pdfs/sample.pdf], of three A4 pages (595 x 842 points);
    PyMuPDF counts a negative page index from the end and refuses an index
    past the last page; nothing fails on disk. *)

Definition sample_doc : Document :=
  {| doc_handle := "pdfs/sample.pdf";
     page_count := 3;
     doc_metadata := Some {[ "title" := "Sample" ]} |}.

Definition sample_load_page (doc : Document) (i : Z) : exn + Page :=
  if i <? page_count doc
  then inr {| page_doc := doc; page_index := i `mod` page_count doc |}
  else inl "page not in document".

Definition sample_get_pixmap (page : Page) (zoom : Q) : exn + Pixmap :=
  inr {| pix_width := Qceiling (595 * zoom);
         pix_height := Qceiling (842 * zoom);
         pix_samples := "" |}.

Definition sample_world (t : Z) : world :=
  {| now := t;
     urandom_hex := "0a1b2c3d";
     path_exists := λ p, bool_decide (p = "pdfs/sample.pdf");
     fitz_open := λ p,
       if bool_decide (p = "pdfs/sample.pdf") then inr sample_doc
       else inl ("no such file: '" +:+ p +:+ "'");
     load_page := sample_load_page;
     get_pixmap := sample_get_pixmap;
     png_encode := λ _ _, "PNG";
     b64encode := λ _, "UE5H";
     write_error := λ _ _, None;
     rmtree_error := λ _, None |}.

(** The same world with a directory that cannot be removed. *)
Definition stuck_world (t : Z) (stuck : string) : world :=
  {| now := t;
     urandom_hex := urandom_hex (sample_world t);
     path_exists := path_exists (sample_world t);
     fitz_open := fitz_open (sample_world t);
     load_page := load_page (sample_world t);
     get_pixmap := get_pixmap (sample_world t);
     png_encode := png_encode (sample_world t);
     b64encode := b64encode (sample_world t);
     write_error := write_error (sample_world t);
     rmtree_error := λ k,
       if bool_decide (k = stuck) then Some "[Errno 13] Permission denied" else None |}.

(** The sample world with a second page that cannot be rasterised. *)
Definition torn_world (t : Z) : world :=
  {| now := t;
     urandom_hex := urandom_hex (sample_world t);
     path_exists := path_exists (sample_world t);
     fitz_open := fitz_open (sample_world t);
     load_page := load_page (sample_world t);
     get_pixmap := λ page zoom,
       if page_index page =? 1 then inl "cannot rasterise page"
       else get_pixmap (sample_world t) page zoom;
     png_encode := png_encode (sample_world t);
     b64encode := b64encode (sample_world t);
     write_error := write_error (sample_world t);
     rmtree_error := rmtree_error (sample_world t) |}.

(** Runs a list of events from a state, each in its own world; the traces
    are concatenated. *)
Fixpoint run (evs : list (world * event)) (s : state) : state * list effect :=
  match evs with
  | [] => (s, [])
  | (w, ev) :: evs' =>
      let r := handle w ev s in
      let r' := run evs' (final r) in
      (r'.1, trace r ++ r'.2)
  end.

(** * Specifications

    The predicates, sample states and sample runs the theorems are stated
    with. *)

(** [triple Φ P m Q E]: from a state in [P], every outside call of [m] is in
    [Φ], a returned value and the state left satisfy [Q], and a raised
    exception and the state left satisfy [E]. *)
Definition triple {A} (Φ : effect → Prop) (P : state → Prop) (m : M A)
    (Q : A → state → Prop) (E : exn → state → Prop) : Prop :=
  ∀ s, P s →
    Forall Φ (trace (m s)) ∧
    match result (m s) with
    | inr a => Q a (final (m s))
    | inl e => E e (final (m s))
    end.

(** The state after [save_page_image] wrote a page. *)
Definition saved (image_data : bytes) (session_id : string) (page_num : Z) (s : state)
  : state :=
  set_temp_pages
    (<[session_id := <[page_filename page_num := image_data]>
                       (default ∅ (temp_pages s !! session_id))]> (temp_pages s)) s.

(** [loadPDF] of the sample document and [requestPage] of page [n] with the
    default quality. *)
Definition sample_load : event := LoadPDF {| pdfId := "sample" |}.

Definition request (n : Z) : event :=
  RequestPage {| pageNum := n; page_options := None |}.

(** One client connected and loaded [sample]. *)
Definition viewing_state : state :=
  (run [(sample_world 1000, Connect); (sample_world 1001, sample_load)]
     initial_state).1.

(** Two clients connected, the document is in the cache (through the REST
    route), and nobody loaded it over the socket. *)
Definition two_clients : state :=
  (run [(sample_world 1000, Connect); (sample_world 1001, Connect);
        (sample_world 1002, GetPdfInfo "sample")] initial_state).1.

(** A session record after a handler, against the record before: same key,
    same [sid], same [last_activity], and a document path that is either
    the one before or a key of the cache [c]. *)
Definition same_but_binding (c : gmap string pdf_info) (kv0 kv : string * session) : Prop :=
  kv.1 = kv0.1 ∧ sid kv.2 = sid kv0.2 ∧ last_activity kv.2 = last_activity kv0.2 ∧
  (current_pdf kv.2 = current_pdf kv0.2 ∨
   ∃ p, current_pdf kv.2 = Some p ∧ is_Some (c !! p)).

(** [served s0 s]: [s] comes from [s0] by loading documents into the cache
    and binding sessions to cached documents. *)
Record served (s0 s : state) : Prop := {
  served_cache : pdf_cache s0 ⊆ pdf_cache s;
  served_sessions : Forall2 (same_but_binding (pdf_cache s)) (sessions s0) (sessions s)
}.

(** Effects other than [emit]. *)
Definition silent (e : effect) : Prop :=
  match e with
  | Emit _ _ => False
  | _ => True
  end.

(** The entries [preload_loop] adds are all built by [preloaded_entry] from
    a page the renderer returned. *)
Definition is_preloaded_entry (j : json) : Prop :=
  ∃ page image_url, j = preloaded_entry page image_url.

(** What [handle_request_page] may emit: an error, or a full page payload. *)
Definition request_page_effect (e : effect) : Prop :=
  match e with
  | Emit ev payload =>
      ev = "pageData" ∧
      ((∃ x, payload = error_payload x) ∨
       (∃ page image_url, payload = page_data_payload page image_url))
  | _ => True
  end.

(** What [handle_preload_pages] may emit: an error, or a list of entries. *)
Definition preload_pages_effect (e : effect) : Prop :=
  match e with
  | Emit ev payload =>
      ev = "pagesPreloaded" ∧
      ((∃ x, payload = error_payload x) ∨
       (∃ pages, payload = JObj [("pages", JList pages)] ∧
                 Forall is_preloaded_entry pages))
  | _ => True
  end.

(** The fields of an entry of [pagesPreloaded] and of a [pageData] payload. *)
Definition preloaded_keys : list string :=
  ["pageNum"; "width"; "height"; "imageUrl"; "timestamp"].

Definition page_data_keys : list string :=
  ["pageNum"; "width"; "height"; "imageUrl"; "imageBase64"; "timestamp"].

(** The last-activity timestamp of every session, by session id. *)
Definition last_activities (s : state) : list (string * Z) :=
  (λ kv, (kv.1, last_activity kv.2)) <$> sessions s.

(** The events a connected client sends after [connect]. *)
Definition is_activity (ev : event) : bool :=
  match ev with
  | LoadPDF _ | RequestPage _ | PreloadPages _ | Ping => true
  | _ => false
  end.

(** A client that loads, requests, preloads and pings between 2000 and 2003. *)
Definition busy_client : list (world * event) :=
  [(sample_world 2000, sample_load);
   (sample_world 2001, request 1);
   (sample_world 2002, PreloadPages {| pageNums := [2; 3]; preload_options := None |});
   (sample_world 2003, Ping)].

(** Every session with a document path has that path as a key of the cache. *)
Definition bound_in_cache (s : state) : Prop :=
  ∀ k v p, (k, v) ∈ sessions s → current_pdf v = Some p →
           is_Some (pdf_cache s !! p).

(** [shrunk s0 s]: [s] has the cache of [s0] and some of its sessions. *)
Definition shrunk (s0 s : state) : Prop :=
  sessions s ⊆ sessions s0 ∧ pdf_cache s = pdf_cache s0.

(** The causes of a failed load: the file is missing, or it is not in the
    cache and PyMuPDF cannot open it. *)
Definition load_fails (w : world) (data : load_pdf_data) (s : state) : Prop :=
  let pdf_path := pdf_path_of (pdfId data) in
  path_exists w pdf_path = false ∨
  (pdf_cache s !! pdf_path = None ∧ ∃ e, fitz_open w pdf_path = inl e).

(** [1 <= page_num <= pdf_info['total_pages']] *)
Definition in_document (info : pdf_info) (n : Z) : Prop := 1 ≤ n ≤ total_pages info.

#[local] Instance in_document_dec info n : Decision (in_document info n).
Proof. unfold in_document. apply _. Defined.

(** An entry of the response for page [n]. *)
Definition entry_for (n : Z) (entry : json) : Prop :=
  is_preloaded_entry entry ∧
  get_field "pageNum" entry = Some (JInt n) ∧
  get_field "error" entry = None.

(** [current_time - session_data['last_activity'] > timeout] *)
Definition expired (current_time : Z) (v : session) : bool :=
  timeout <? current_time - last_activity v.

(** A session the sweep keeps, and one it removes. *)
Definition fresh (current_time : Z) (kv : string * session) : Prop :=
  expired current_time kv.2 = false.

Definition stale (current_time : Z) (kv : string * session) : Prop :=
  expired current_time kv.2 = true.

#[local] Instance fresh_dec t kv : Decision (fresh t kv).
Proof. unfold fresh. apply _. Defined.

#[local] Instance stale_dec t kv : Decision (stale t kv).
Proof. unfold stale. apply _. Defined.

(** Puts the effects [t0] before those of a run. *)
Definition after {A} (t0 : list effect) (r : (exn + A) * state * list effect)
  : (exn + A) * state * list effect :=
  (r.1.1, r.1.2, t0 ++ r.2).

(** Two clients; the first, connected at 1000, has rendered a page at 2502,
    the second connected at 2500. *)
Definition sweep_state : state :=
  (run [(sample_world 1000, Connect); (sample_world 2500, Connect);
        (sample_world 2501, sample_load); (sample_world 2502, request 1)]
     initial_state).1.

(** Two clients connected at 1000 and 1001; the first rendered a page. *)
Definition crowded_state : state :=
  (run [(sample_world 1000, Connect); (sample_world 1001, Connect);
        (sample_world 1002, sample_load); (sample_world 1003, request 1)]
     initial_state).1.

(** The sides of the output are in the ratio of the sides of the source up
    to the rounding of one side to a whole pixel: cross-multiplied, they
    differ by less than the longer side of the source. *)
Definition aspect_kept (src out : Z * Z) : Prop :=
  Z.abs (out.1 * src.2 - out.2 * src.1) < Z.max src.1 src.2.

(** A computation that emits nothing. *)
Definition quiet {A} (m : M A) : Prop := ∀ s, emitted (trace (m s)) = [].

(** A computation that emits one event [name] when it returns and nothing
    when it raises. *)
Definition replies {A} (name : string) (m : M A) : Prop :=
  ∀ s, match result (m s) with
       | inr _ => ∃ payload, emitted (trace (m s)) = [(name, payload)]
       | inl _ => emitted (trace (m s)) = []
       end.

(** The event each handler answers with. *)
Definition response_of (ev : event) : option string :=
  match ev with
  | Connect => Some "connected"
  | LoadPDF _ => Some "pdfLoaded"
  | RequestPage _ => Some "pageData"
  | PreloadPages _ => Some "pagesPreloaded"
  | Ping => Some "pong"
  | Disconnect | Cleanup | GetPdfInfo _ => None
  end.

(** The entry [load_pdf] makes for a document it opened. *)
Definition info_of (pdf_path : string) (doc : Document) : pdf_info :=
  {| document := doc; total_pages := page_count doc;
     path := pdf_path; metadata := metadata_of doc |}.

(** A cache entry is the one [load_pdf] makes for its own key. *)
Definition cache_entries_made (s : state) : Prop :=
  ∀ p info, pdf_cache s !! p = Some info → info = info_of p (document info).

(** The file [filename] of session [session_id] is on disk. *)
Definition stored (session_id filename : string) (s : state) : Prop :=
  is_Some (temp_pages s !! session_id ≫= (λ dir, dir !! filename)).

(** The bytes of a stored page file, if it is there. *)
Definition file_at (session_id filename : string) (s : state) : option bytes :=
  temp_pages s !! session_id ≫= (λ dir, dir !! filename).

(** A computation that leaves the page file [filename] of [session_id] as it
    found it, unless it wrote that very file; the file is there after a
    write that went through. *)
Definition keeps_file {A} (session_id filename : string) (m : M A) : Prop :=
  ∀ s,
    file_at session_id filename (final (m s)) = file_at session_id filename s ∨
    (WriteFile session_id filename ∈ trace (m s) ∧
     is_Some (file_at session_id filename (final (m s)))).

(** Every session is stored under its own [sid], and every directory under
    [temp_pages/] is that of a session of the table or one of [dirs], the
    directories an earlier run of the server left there. *)
Definition tidy (dirs : gmap string (gmap string bytes)) (s : state) : Prop :=
  (∀ k v, (k, v) ∈ sessions s → sid v = k) ∧
  (∀ k, is_Some (temp_pages s !! k) → k ∈ (sessions s).*1 ∨ is_Some (dirs !! k)).

(** The server right after a restart: [sessions] and [pdf_cache] are empty
    again, and [temp_pages/] still has the directory of a session of the
    run before ([TEMP_DIR.mkdir(exist_ok=True)] keeps what is there). *)
Definition restarted_state : state :=
  set_temp_pages {[ "session_900_0a1b2c3d" := {[ "page_1.png" := "OLD" ]} ]}
    initial_state.

(** The sweeps the background thread makes, one per world of [ws]. *)
Definition sweeps (ws : list world) : list (world * event) :=
  (λ w, (w, Cleanup)) <$> ws.

Section Specifications.

Context (w : world).

(** What [render_page] returns for a rasterised page. *)
Definition rendered (page_num : Z) (quality : string) (pix : Pixmap) : page_data :=
  let target_size := target_size_of quality in
  let img := thumbnail (pix_width pix, pix_height pix) (target_size, target_size) in
  {| page_num := page_num;
     width := img.1;
     height := img.2;
     image_data := png_encode w pix img;
     image_base64 := b64encode w (png_encode w pix img);
     timestamp := now w |}.

(** PyMuPDF yields the page and its pixmap. *)
Definition renders_ok (doc : Document) (page_num : Z) (quality : string) : Prop :=
  ∃ page pix, load_page w doc (page_num - 1) = inr page ∧
              get_pixmap w page (zoom_of quality) = inr pix.

(** Rendering and saving go well for the pages of [page_nums] that are in
    the document. *)
Definition pages_go_well (info : pdf_info) (session_data : session) (quality : string)
    (page_nums : list Z) : Prop :=
  ∀ n, n ∈ page_nums → 1 ≤ n ≤ total_pages info →
       renders_ok (document info) n quality ∧
       write_error w (sid session_data) (page_filename n) = None.

(** The session whose directory exists and cannot be removed: the sweep
    raises there. *)
Definition blocks (temp : gmap string (gmap string bytes)) (current_time : Z)
    (kv : string * session) : Prop :=
  stale current_time kv ∧ is_Some (temp !! kv.1) ∧ is_Some (rmtree_error w kv.1).

End Specifications.

#[local] Instance blocks_dec w temp t kv : Decision (blocks w temp t kv).
Proof. unfold blocks. apply _. Defined.

(** * Reasoning about computations *)

Section Triples.

Context (Φ : effect → Prop).

Lemma triple_ret {A} (a : A) (P : state → Prop) Q E :
  (∀ s, P s → Q a s) → triple Φ P (ret a) Q E.
Proof. intros H s Hs. split; [constructor | by apply H]. Qed.

Lemma triple_raise {A} e (P : state → Prop) (Q : A → state → Prop) E :
  (∀ s, P s → E e s) → triple Φ P (raise e) Q E.
Proof. intros H s Hs. split; [constructor | by apply H]. Qed.

Lemma triple_get (P : state → Prop) Q E :
  (∀ s, P s → Q s s) → triple Φ P get Q E.
Proof. intros H s Hs. split; [constructor | by apply H]. Qed.

Lemma triple_modify f (P : state → Prop) Q E :
  (∀ s, P s → Q tt (f s)) → triple Φ P (modify f) Q E.
Proof. intros H s Hs. split; [constructor | by apply H]. Qed.

Lemma triple_tell e (P : state → Prop) Q E :
  (∀ s, P s → Φ e ∧ Q tt s) → triple Φ P (tell e) Q E.
Proof.
  intros H s Hs. destruct (H s Hs) as [He Hq].
  split; [by repeat constructor | done].
Qed.

Lemma triple_call {A} e (r : exn + A) (P : state → Prop) Q E :
  (∀ s, P s → Φ e ∧ match r with inr a => Q a s | inl x => E x s end) →
  triple Φ P (call e r) Q E.
Proof.
  intros H s Hs. destruct (H s Hs) as [He Hq].
  split; [by repeat constructor | done].
Qed.

Lemma triple_bind {A B} (m : M A) (f : A → M B) P Q R E :
  triple Φ P m Q E → (∀ a, triple Φ (Q a) (f a) R E) →
  triple Φ P (bind m f) R E.
Proof.
  intros Hm Hf s Hs. specialize (Hm s Hs).
  unfold bind, result, final, trace in *.
  destruct (m s) as [[[e|a] s1] t1]; simpl in *; [done|].
  destruct Hm as [Ht Hq]. specialize (Hf a s1 Hq).
  destruct (f a s1) as [[r s2] t2]; simpl in *.
  destruct Hf as [Ht2 Hr]. split; [by apply Forall_app | done].
Qed.

Lemma triple_try {A} (body : M A) handler P Q E E' :
  triple Φ P body Q E' → (∀ e, triple Φ (E' e) (handler e) Q E) →
  triple Φ P (try_except body handler) Q E.
Proof.
  intros Hm Hh s Hs. specialize (Hm s Hs).
  unfold try_except, result, final, trace in *.
  destruct (body s) as [[[e|a] s1] t1]; simpl in *; [|done].
  destruct Hm as [Ht He]. specialize (Hh e s1 He).
  destruct (handler e s1) as [[r s2] t2]; simpl in *.
  destruct Hh as [Ht2 Hr]. split; [by apply Forall_app | done].
Qed.

Lemma triple_conseq {A} (m : M A) (P P' : state → Prop) (Q Q' : A → state → Prop)
    (E E' : exn → state → Prop) :
  triple Φ P' m Q' E' →
  (∀ s, P s → P' s) → (∀ a s, Q' a s → Q a s) → (∀ e s, E' e s → E e s) →
  triple Φ P m Q E.
Proof.
  intros Hm HP HQ HE s Hs. destruct (Hm s (HP s Hs)) as [Ht Hr].
  split; [done|]. destruct (result (m s)); auto.
Qed.

(** A precondition that does not depend on the state can be taken out. *)
Lemma triple_assume {A} (m : M A) (P : state → Prop) (F : Prop) Q E :
  (F → triple Φ P m Q E) → triple Φ (λ s, F ∧ P s) m Q E.
Proof. intros H s [HF Hs]. by apply H. Qed.

End Triples.

Lemma run_bind {A B} (m : M A) (f : A → M B) s a s1 t1 :
  m s = (inr a, s1, t1) →
  bind m f s = ((f a s1).1.1, (f a s1).1.2, t1 ++ (f a s1).2).
Proof. intros H. unfold bind. rewrite H. by destruct (f a s1) as [[??]?]. Qed.

Lemma run_bind_raise {A B} (m : M A) (f : A → M B) s e s1 t1 :
  m s = (inl e, s1, t1) → bind m f s = (inl e, s1, t1).
Proof. intros H. unfold bind. by rewrite H. Qed.

Lemma elem_trace_bind_l {A B} (m : M A) (f : A → M B) s x :
  x ∈ trace (m s) → x ∈ trace (bind m f s).
Proof.
  unfold bind, trace. destruct (m s) as [[[e|a] s1] t1]; simpl; [done|].
  destruct (f a s1) as [[r s2] t2]; simpl. set_solver.
Qed.

Lemma elem_trace_bind_r {A B} (m : M A) (f : A → M B) s a s1 t1 x :
  m s = (inr a, s1, t1) → x ∈ trace (f a s1) → x ∈ trace (bind m f s).
Proof.
  intros H. rewrite (run_bind _ _ _ _ _ _ H). unfold trace; simpl. set_solver.
Qed.

Lemma elem_trace_try {A} (body : M A) handler s x :
  x ∈ trace (body s) → x ∈ trace (try_except body handler s).
Proof.
  unfold try_except, trace. destruct (body s) as [[[e|a] s1] t1]; simpl; [|done].
  destruct (handler e s1) as [[r s2] t2]; simpl. set_solver.
Qed.

Lemma bind_get {B} (f : state → M B) s : bind get f s = f s s.
Proof. unfold bind, get. by destruct (f s s) as [[??]?]. Qed.

Lemma bind_ret_l {A B} (a : A) (f : A → M B) s : bind (ret a) f s = f a s.
Proof. unfold bind, ret. by destruct (f a s) as [[??]?]. Qed.

Lemma bind_assoc {A B C} (m : M A) (f : A → M B) (g : B → M C) s :
  bind (bind m f) g s = bind m (λ a, bind (f a) g) s.
Proof.
  unfold bind. destruct (m s) as [[[e|a] s1] t1]; [done|].
  destruct (f a s1) as [[[e|b] s2] t2]; [done|].
  destruct (g b s2) as [[r s3] t3]. by rewrite app_assoc.
Qed.

Lemma bind_modify {B} g (f : unit → M B) s : bind (modify g) f s = f tt (g s).
Proof. unfold bind, modify. by destruct (f tt (g s)) as [[??]?]. Qed.

Lemma bind_tell {B} e (f : unit → M B) s : bind (tell e) f s = after [e] (f tt s).
Proof. unfold bind, tell, after. by destruct (f tt s) as [[??]?]. Qed.

Lemma bind_call {A B} e (r : exn + A) (f : A → M B) s :
  bind (call e r) f s
  = match r with
    | inl x => (inl x, s, [e])
    | inr a => after [e] (f a s)
    end.
Proof. unfold bind, call, after. destruct r; [done|]. by destruct (f a s) as [[??]?]. Qed.

Lemma after_nil {A} (r : (exn + A) * state * list effect) : after [] r = r.
Proof. by destruct r as [[??]?]. Qed.

Lemma after_after {A} t1 t2 (r : (exn + A) * state * list effect) :
  after t1 (after t2 r) = after (t1 ++ t2) r.
Proof. unfold after; simpl. by rewrite app_assoc. Qed.

Lemma final_after {A} t0 (r : (exn + A) * state * list effect) :
  final (after t0 r) = final r.
Proof. done. Qed.

Lemma result_after {A} t0 (r : (exn + A) * state * list effect) :
  result (after t0 r) = result r.
Proof. done. Qed.

Lemma emitted_app t1 t2 : emitted (t1 ++ t2) = emitted t1 ++ emitted t2.
Proof. apply omap_app. Qed.

(** * The document cache *)

Section LoadPdf.

Context (w : world).

Lemma load_pdf_hit pdf_path s info :
  pdf_cache s !! pdf_path = Some info →
  load_pdf w pdf_path s
  = (inr info, s, [Log INFO ("Loading PDF from cache: " +:+ pdf_path)]).
Proof.
  intros H. unfold load_pdf, try_except, bind, get; simpl. by rewrite H.
Qed.

Lemma load_pdf_miss pdf_path s :
  pdf_cache s !! pdf_path = None →
  load_pdf w pdf_path s
  = match fitz_open w pdf_path with
    | inr doc =>
        let info := {| document := doc; total_pages := page_count doc;
                       path := pdf_path; metadata := metadata_of doc |} in
        (inr info, set_pdf_cache (<[pdf_path := info]> (pdf_cache s)) s,
         [FitzOpen pdf_path;
          Log INFO ("PDF loaded: " +:+ pdf_path +:+ " ("
                      +:+ pretty (page_count doc) +:+ " pages)")])
    | inl e => (inl e, s, [FitzOpen pdf_path; Log ERROR ("Error loading PDF: " +:+ e)])
    end.
Proof.
  intros H. unfold load_pdf, try_except, bind, get, call; simpl. rewrite H.
  by destruct (fitz_open w pdf_path).
Qed.

(** A load that returns leaves the returned entry in the cache. *)
Lemma load_pdf_cached pdf_path s info :
  result (load_pdf w pdf_path s) = inr info →
  pdf_cache (final (load_pdf w pdf_path s)) !! pdf_path = Some info.
Proof.
  destruct (pdf_cache s !! pdf_path) as [info'|] eqn:Hc.
  - rewrite (load_pdf_hit _ _ _ Hc). unfold result, final; simpl. congruence.
  - rewrite (load_pdf_miss _ _ Hc). unfold result, final.
    destruct (fitz_open w pdf_path); simpl; [done|].
    intros [= <-]. apply lookup_insert_eq.
Qed.

End LoadPdf.

(** C7. A second [load_pdf] of a path, with [pdf_cache] kept, returns the
    very entry the first call returned and left in the cache: it does not
    call [fitz.open] again, it leaves the state as it is, and so the
    metadata and the page count of the two results are the same.  The world
    of the second call may differ from that of the first (the file may be
    gone or changed). *)
Theorem load_pdf_twice_is_cache_hit (w w' : world) (pdf_path : string) (s : state)
    (info : pdf_info) :
  result (load_pdf w pdf_path s) = inr info →
  let s1 := final (load_pdf w pdf_path s) in
  pdf_cache s1 !! pdf_path = Some info ∧
  result (load_pdf w' pdf_path s1) = inr info ∧
  final (load_pdf w' pdf_path s1) = s1 ∧
  (∀ p, FitzOpen p ∉ trace (load_pdf w' pdf_path s1)) ∧
  (∀ info', result (load_pdf w' pdf_path s1) = inr info' →
     metadata info' = metadata info ∧ total_pages info' = total_pages info).
Proof.
  intros Hr s1. pose proof (load_pdf_cached w _ _ _ Hr) as Hc. fold s1 in Hc.
  rewrite (load_pdf_hit w' _ _ _ Hc). unfold result, final, trace; simpl.
  split; [done|]. split; [done|]. split; [done|]. split.
  - intros p Hin. apply list_elem_of_singleton in Hin. discriminate.
  - intros info' [= <-]. done.
Qed.

Lemma load_pdf_twice_is_cache_hit_witness :
  let w := sample_world 1000 in
  let s1 := final (load_pdf w "pdfs/sample.pdf" initial_state) in
  result (load_pdf w "pdfs/sample.pdf" s1) = result (load_pdf w "pdfs/sample.pdf" initial_state)
  ∧ trace (load_pdf w "pdfs/sample.pdf" initial_state)
    = [FitzOpen "pdfs/sample.pdf"; Log INFO "PDF loaded: pdfs/sample.pdf (3 pages)"]
  ∧ trace (load_pdf w "pdfs/sample.pdf" s1)
    = [Log INFO "Loading PDF from cache: pdfs/sample.pdf"].
Proof.
  intros w s1.
  destruct (load_pdf_twice_is_cache_hit w w "pdfs/sample.pdf" initial_state
              {| document := sample_doc; total_pages := 3;
                 path := "pdfs/sample.pdf"; metadata := metadata_of sample_doc |})
    as (_ & Hres & _); [vm_compute; reflexivity|].
  split; [|split].
  - fold w s1 in Hres. rewrite Hres. vm_compute. reflexivity.
  - vm_compute. reflexivity.
  - vm_compute. reflexivity.
Defined.

(** * Rendering and saving a page *)

Section Render.

Context (w : world).

Lemma render_page_run doc page_num quality s :
  render_page w doc page_num quality s
  = match load_page w doc (page_num - 1) with
    | inr page =>
        match get_pixmap w page (zoom_of quality) with
        | inr pix =>
            (inr (rendered w page_num quality pix), s,
             [LoadPage doc (page_num - 1); GetPixmap page (zoom_of quality)])
        | inl e =>
            (inl e, s,
             [LoadPage doc (page_num - 1); GetPixmap page (zoom_of quality);
              Log ERROR ("Error rendering page " +:+ pretty page_num +:+ ": " +:+ e)])
        end
    | inl e =>
        (inl e, s,
         [LoadPage doc (page_num - 1);
          Log ERROR ("Error rendering page " +:+ pretty page_num +:+ ": " +:+ e)])
    end.
Proof.
  unfold render_page, try_except, bind, call; simpl.
  destruct (load_page w doc (page_num - 1)) as [e|page]; [done|].
  by destruct (get_pixmap w page (zoom_of quality)).
Qed.

(** Whatever the page number, [render_page] starts by asking PyMuPDF for
    the page. *)
Lemma render_page_calls_load_page doc page_num quality s :
  ∃ t, trace (render_page w doc page_num quality s)
       = LoadPage doc (page_num - 1) :: t.
Proof.
  rewrite render_page_run.
  destruct (load_page w doc (page_num - 1)) as [e|page]; [by eexists|].
  destruct (get_pixmap w page (zoom_of quality)); by eexists.
Qed.

Lemma render_page_final doc page_num quality s :
  final (render_page w doc page_num quality s) = s.
Proof.
  rewrite render_page_run.
  destruct (load_page w doc (page_num - 1)) as [e|page]; [done|].
  by destruct (get_pixmap w page (zoom_of quality)).
Qed.

Lemma save_page_image_run image_data session_id page_num s :
  save_page_image w image_data session_id page_num s
  = match write_error w session_id (page_filename page_num) with
    | None =>
        (inr ("/pages/" +:+ session_id +:+ "/" +:+ page_filename page_num),
         saved image_data session_id page_num s,
         [WriteFile session_id (page_filename page_num)])
    | Some e =>
        (inl e, s,
         [WriteFile session_id (page_filename page_num);
          Log ERROR ("Error saving page image: " +:+ e)])
    end.
Proof.
  unfold save_page_image, try_except, bind, call, modify; simpl.
  by destruct (write_error w session_id (page_filename page_num)).
Qed.

Lemma save_page_image_final image_data session_id page_num s :
  sessions (final (save_page_image w image_data session_id page_num s)) = sessions s ∧
  pdf_cache (final (save_page_image w image_data session_id page_num s)) = pdf_cache s.
Proof.
  rewrite save_page_image_run.
  by destruct (write_error w session_id (page_filename page_num)).
Qed.

(** With a document bound and cached, [handle_request_page] hands the page
    number to the renderer as it came: nothing checks it first. *)
Lemma request_page_calls_renderer data s session_data pdf_path info :
  bound_session s = Some (session_data, pdf_path) →
  pdf_cache s !! pdf_path = Some info →
  LoadPage (document info) (pageNum data - 1) ∈ trace (handle_request_page w data s).
Proof.
  intros Hb Hc. apply elem_trace_try.
  eapply elem_trace_bind_r; [reflexivity|]. simpl. rewrite Hb.
  eapply elem_trace_bind_r; [by apply load_pdf_hit|].
  apply elem_trace_bind_l.
  destruct (render_page_calls_load_page (document info) (pageNum data)
              (quality_or "high" (page_options data)) s) as [t ->].
  apply list_elem_of_here.
Qed.

End Render.

(** * Page requests: which page, and whose session *)

(** C1, at the failing input.  A client viewing the three-page sample
    asks for page 0 and for page 5.  In every world [handle_request_page]
    passes the number on to the renderer ([doc.load_page(-1)],
    [doc.load_page(4)]) with no check before; in the sample world, where
    PyMuPDF counts index -1 from the end, page 0 comes back as a rendered
    page, and page 5 fails inside the renderer. *)
Theorem request_page_out_of_range_reaches_renderer :
  (∀ w, LoadPage sample_doc (-1) ∈ trace (handle w (request 0) viewing_state)) ∧
  (∀ w, LoadPage sample_doc 4 ∈ trace (handle w (request 5) viewing_state)) ∧
  emitted (trace (handle (sample_world 1002) (request 0) viewing_state))
  = [("pageData",
      JObj [("pageNum", JInt 0); ("width", JInt 724); ("height", JInt 1024);
            ("imageUrl",
             JStr "http://localhost:5000/pages/session_1000_0a1b2c3d/page_0.png");
            ("imageBase64", JStr "UE5H"); ("timestamp", JInt 1002)])] ∧
  emitted (trace (handle (sample_world 1002) (request 5) viewing_state))
  = [("pageData", JObj [("error", JStr "page not in document")])].
Proof.
  pose (sd := {| sid := "session_1000_0a1b2c3d";
                 current_pdf := Some "pdfs/sample.pdf"; last_activity := 1000 |}).
  pose (info := {| document := sample_doc; total_pages := 3;
                   path := "pdfs/sample.pdf"; metadata := metadata_of sample_doc |}).
  assert (Hb : bound_session viewing_state = Some (sd, "pdfs/sample.pdf"))
    by (vm_compute; reflexivity).
  assert (Hc : pdf_cache viewing_state !! "pdfs/sample.pdf" = Some info)
    by (vm_compute; reflexivity).
  split; [|split; [|split]].
  - intros w.
    exact (request_page_calls_renderer w {| pageNum := 0; page_options := None |}
             _ _ _ info Hb Hc).
  - intros w.
    exact (request_page_calls_renderer w {| pageNum := 5; page_options := None |}
             _ _ _ info Hb Hc).
  - vm_compute. reflexivity.
  - vm_compute. reflexivity.
Qed.

(** C2, at the failing input.  Two clients are connected; the second sends
    [loadPDF].  The handler binds the first session of the table, not the
    sender's: the sender's record stays unbound.  The two tables below then
    differ in the first client's record only, and the second client's
    [requestPage] is answered differently: "No PDF loaded" in one, a page
    stored under the first client's directory in the other. *)
Theorem other_session_decides_response :
  let s := two_clients in
  let s' := final (handle (sample_world 1003) sample_load s) in
  sessions s
  = [("session_1000_0a1b2c3d",
      {| sid := "session_1000_0a1b2c3d"; current_pdf := None; last_activity := 1000 |});
     ("session_1001_0a1b2c3d",
      {| sid := "session_1001_0a1b2c3d"; current_pdf := None; last_activity := 1001 |})] ∧
  sessions s'
  = [("session_1000_0a1b2c3d",
      {| sid := "session_1000_0a1b2c3d"; current_pdf := Some "pdfs/sample.pdf";
         last_activity := 1000 |});
     ("session_1001_0a1b2c3d",
      {| sid := "session_1001_0a1b2c3d"; current_pdf := None; last_activity := 1001 |})] ∧
  pdf_cache s' = pdf_cache s ∧ temp_pages s' = temp_pages s ∧
  emitted (trace (handle (sample_world 1004) (request 1) s))
  = [("pageData", JObj [("error", JStr "No PDF loaded")])] ∧
  emitted (trace (handle (sample_world 1004) (request 1) s'))
  = [("pageData",
      JObj [("pageNum", JInt 1); ("width", JInt 724); ("height", JInt 1024);
            ("imageUrl",
             JStr "http://localhost:5000/pages/session_1000_0a1b2c3d/page_1.png");
            ("imageBase64", JStr "UE5H"); ("timestamp", JInt 1004)])].
Proof. vm_compute. repeat split; reflexivity. Qed.

(** * What the socket handlers may do to the tables *)

Lemma served_refl s : served s s.
Proof.
  split; [done|]. apply Forall_Forall2_diag, Forall_forall.
  intros kv _. repeat split. by left.
Qed.

Lemma served_trans s0 s1 s2 : served s0 s1 → served s1 s2 → served s0 s2.
Proof.
  intros [Hc1 Hs1] [Hc2 Hs2]. split; [by etrans|].
  eapply Forall2_trans; [|exact Hs1|exact Hs2].
  intros kv0 kv1 kv2 (Hk1 & Hi1 & Ha1 & Hp1) (Hk2 & Hi2 & Ha2 & Hp2).
  repeat split; [congruence..|].
  destruct Hp2 as [Hp2|Hp2]; [|by right].
  rewrite Hp2. destruct Hp1 as [Hp1|(p & Hp1 & Hin)]; [by left|].
  right. exists p. split; [done|]. by eapply lookup_weaken_is_Some.
Qed.

Lemma served_cache_insert s pdf_path info :
  pdf_cache s !! pdf_path = None →
  served s (set_pdf_cache (<[pdf_path := info]> (pdf_cache s)) s).
Proof.
  intros H. split; simpl; [by apply insert_subseteq|].
  apply Forall_Forall2_diag, Forall_forall.
  intros kv _. repeat split. by left.
Qed.

Lemma served_temp_pages s d : served s (set_temp_pages d s).
Proof.
  split; simpl; [done|]. apply Forall_Forall2_diag, Forall_forall.
  intros kv _. repeat split. by left.
Qed.

Lemma served_bind s i p :
  is_Some (pdf_cache s !! p) →
  served s (set_sessions (alter (prod_map id (with_current_pdf p)) i (sessions s)) s).
Proof.
  intros H. split; simpl; [done|]. apply Forall2_alter_r.
  - apply Forall_Forall2_diag, Forall_forall. intros kv _. repeat split. by left.
  - intros kv0 kv _ _ (Hk & Hi & Ha & _). repeat split; simpl; [done..|].
    right. by exists p.
Qed.

Section Components.

Context (w : world) (Φ : effect → Prop) (HΦ : ∀ e, silent e → Φ e).

Lemma load_pdf_spec pdf_path s0 :
  triple Φ (served s0) (load_pdf w pdf_path)
    (λ info s, served s0 s ∧ pdf_cache s !! pdf_path = Some info)
    (λ _ s, served s0 s).
Proof.
  intros s Hs. destruct (pdf_cache s !! pdf_path) as [info|] eqn:Hc.
  - rewrite (load_pdf_hit _ _ _ _ Hc). unfold result, final, trace; simpl.
    split; [|done]. repeat constructor. by apply HΦ.
  - rewrite (load_pdf_miss _ _ _ Hc). unfold result, final, trace.
    destruct (fitz_open w pdf_path) as [e|doc]; simpl.
    + split; [|done]. repeat constructor; by apply HΦ.
    + split; [repeat constructor; by apply HΦ|]. split.
      * eapply served_trans; [done|]. by apply served_cache_insert.
      * apply lookup_insert_eq.
Qed.

Lemma render_page_spec doc page_num quality (P : state → Prop) :
  triple Φ P (render_page w doc page_num quality)
    (λ page s, P s ∧ ∃ pix, page = rendered w page_num quality pix)
    (λ _ s, P s).
Proof.
  intros s Hs. rewrite render_page_run. unfold result, final, trace.
  destruct (load_page w doc (page_num - 1)) as [e|page]; simpl.
  { split; [|done]. repeat constructor; by apply HΦ. }
  destruct (get_pixmap w page (zoom_of quality)) as [e|pix]; simpl.
  { split; [|done]. repeat constructor; by apply HΦ. }
  split; [repeat constructor; by apply HΦ|]. eauto.
Qed.

Lemma save_page_image_spec image_data session_id page_num s0 :
  triple Φ (served s0) (save_page_image w image_data session_id page_num)
    (λ _ s, served s0 s) (λ _ s, served s0 s).
Proof.
  intros s Hs. rewrite save_page_image_run. unfold result, final, trace.
  destruct (write_error w session_id (page_filename page_num)) as [e|]; simpl.
  { split; [|done]. repeat constructor; by apply HΦ. }
  split; [repeat constructor; by apply HΦ|].
  eapply served_trans; [done|]. apply served_temp_pages.
Qed.

Lemma preload_loop_spec info session_data quality page_nums pages s0 :
  Forall is_preloaded_entry pages →
  triple Φ (served s0) (preload_loop w info session_data quality page_nums pages)
    (λ pages' s, served s0 s ∧ Forall is_preloaded_entry pages')
    (λ _ s, served s0 s).
Proof.
  revert pages. induction page_nums as [|page_num rest IH]; intros pages Hp; simpl.
  { by apply triple_ret. }
  destruct ((1 <=? page_num) && (page_num <=? total_pages info)); [|by apply IH].
  eapply triple_bind; [apply render_page_spec|]. intros page. simpl.
  apply triple_bind with (Q := λ _ s, served s0 s).
  { eapply triple_conseq; [apply save_page_image_spec|..].
    - intros s [Hs _]. exact Hs.
    - intros ? s Hs. exact Hs.
    - intros ? s Hs. exact Hs. }
  intros image_url. simpl. apply IH.
  apply Forall_app. split; [done|]. repeat constructor. by eexists _, _.
Qed.

End Components.

(** Uses a proved triple under a stronger precondition and weaker
    postconditions. *)
Ltac by_spec lem :=
  eapply triple_conseq; [apply lem; try done | simpl; intros; intuition eauto ..].

Section Handlers.

Context (w : world).

Lemma handle_load_pdf_spec data s0 :
  triple (λ _, True) (served s0) (handle_load_pdf w data)
    (λ _ s, served s0 s) (λ _ _, False).
Proof.
  unfold handle_load_pdf.
  apply triple_try with (E' := λ _ s, served s0 s).
  - destruct (negb (path_exists w (pdf_path_of (pdfId data)))).
    { by apply triple_tell. }
    apply triple_bind with
      (Q := λ info s, served s0 s ∧ pdf_cache s !! pdf_path_of (pdfId data) = Some info).
    { by_spec load_pdf_spec. }
    intros info.
    apply triple_bind with
      (Q := λ s' s, s' = s ∧ served s0 s ∧
                    pdf_cache s !! pdf_path_of (pdfId data) = Some info).
    { by apply triple_get. }
    intros s'.
    apply triple_bind with (Q := λ _ s, served s0 s).
    { destruct (find_session (sessions s')) as [[i kv]|].
      - apply triple_modify. intros s (-> & Hs & Hc).
        eapply served_trans; [done|]. apply served_bind. by rewrite Hc.
      - apply triple_ret. by intros s (_ & Hs & _). }
    intros _. apply triple_bind with (Q := λ _ s, served s0 s); [by apply triple_tell|].
    intros _. by apply triple_tell.
  - intros e. apply triple_bind with (Q := λ _ s, served s0 s); [by apply triple_tell|].
    intros _. by apply triple_tell.
Qed.

Lemma handle_request_page_spec data s0 :
  triple request_page_effect (served s0) (handle_request_page w data)
    (λ _ s, served s0 s) (λ _ _, False).
Proof.
  assert (HΦ : ∀ e, silent e → request_page_effect e) by (by intros []).
  unfold handle_request_page.
  apply triple_try with (E' := λ _ s, served s0 s).
  - apply triple_bind with (Q := λ _ s, served s0 s); [by apply triple_get|].
    intros s'. destruct (bound_session s') as [[session_data pdf_path]|].
    + apply triple_bind with (Q := λ _ s, served s0 s).
      { by_spec load_pdf_spec. }
      intros info. apply triple_bind with (Q := λ _ s, served s0 s).
      { by_spec render_page_spec. }
      intros page. apply triple_bind with (Q := λ _ s, served s0 s).
      { by_spec save_page_image_spec. }
      intros image_url. apply triple_bind with (Q := λ _ s, served s0 s).
      * apply triple_tell. intros s Hs. split; [|done]. split; [done|].
        right. by eexists _, _.
      * intros _. by apply triple_tell.
    + apply triple_tell. intros s Hs. split; [|done]. split; [done|].
      left. by eexists.
  - intros e. apply triple_bind with (Q := λ _ s, served s0 s); [by apply triple_tell|].
    intros _. apply triple_tell. intros s Hs. split; [|done]. split; [done|].
    left. by eexists.
Qed.

Lemma handle_preload_pages_spec data s0 :
  triple preload_pages_effect (served s0) (handle_preload_pages w data)
    (λ _ s, served s0 s) (λ _ _, False).
Proof.
  assert (HΦ : ∀ e, silent e → preload_pages_effect e) by (by intros []).
  unfold handle_preload_pages.
  apply triple_try with (E' := λ _ s, served s0 s).
  - apply triple_bind with (Q := λ _ s, served s0 s); [by apply triple_get|].
    intros s'. destruct (bound_session s') as [[session_data pdf_path]|].
    + apply triple_bind with (Q := λ _ s, served s0 s).
      { by_spec load_pdf_spec. }
      intros info.
      apply triple_bind with
        (Q := λ pages s, served s0 s ∧ Forall is_preloaded_entry pages).
      { by_spec preload_loop_spec. }
      intros pages. apply triple_bind with (Q := λ _ s, served s0 s).
      * apply triple_tell. intros s [Hs Hp]. split; [|done]. split; [done|].
        right. by eexists.
      * intros _. by apply triple_tell.
    + apply triple_tell. intros s Hs. split; [|done]. split; [done|].
      left. by eexists.
  - intros e. apply triple_bind with (Q := λ _ s, served s0 s); [by apply triple_tell|].
    intros _. apply triple_tell. intros s Hs. split; [|done]. split; [done|].
    left. by eexists.
Qed.

Lemma get_pdf_info_spec pdf_id s0 :
  triple (λ _, True) (served s0) (get_pdf_info w pdf_id)
    (λ _ s, served s0 s) (λ _ _, False).
Proof.
  unfold get_pdf_info.
  apply triple_try with (E' := λ _ s, served s0 s).
  - destruct (negb (path_exists w (pdf_path_of pdf_id))).
    { by apply triple_ret. }
    apply triple_bind with (Q := λ _ s, served s0 s).
    { by_spec load_pdf_spec. }
    intros info. by apply triple_ret.
  - intros e. by apply triple_ret.
Qed.

End Handlers.

(** A finished run of a computation that never raises. *)
Lemma triple_final {A} Φ (P : state → Prop) (m : M A) (Q : A → state → Prop) s :
  triple Φ P m Q (λ _ _, False) → P s →
  Forall Φ (trace (m s)) ∧ ∃ a, result (m s) = inr a ∧ Q a (final (m s)).
Proof.
  intros H Hs. destruct (H s Hs) as [Ht Hr]. split; [done|].
  destruct (result (m s)); [done|]. eauto.
Qed.

(** The four socket handlers that follow [connect], and the REST route,
    only load documents and bind sessions to cached documents. *)
Lemma handle_served w ev s :
  ev ≠ Connect → ev ≠ Cleanup → served s (final (handle w ev s)).
Proof.
  intros Hc Hs. destruct ev; try done; simpl.
  - apply served_refl.
  - destruct (triple_final _ _ _ _ s (handle_load_pdf_spec w data s) (served_refl s))
      as (_ & a & _ & H); exact H.
  - destruct (triple_final _ _ _ _ s (handle_request_page_spec w data s) (served_refl s))
      as (_ & a & _ & H); exact H.
  - destruct (triple_final _ _ _ _ s (handle_preload_pages_spec w data s) (served_refl s))
      as (_ & a & _ & H); exact H.
  - apply served_refl.
  - assert (Hg : triple (λ _, True) (served s)
                   (_ ← get_pdf_info w pdf_id; ret tt)
                   (λ _ s', served s s') (λ _ _, False)).
    { apply triple_bind with (Q := λ _ s', served s s');
        [apply get_pdf_info_spec | intros; by apply triple_ret]. }
    destruct (triple_final _ _ _ _ s Hg (served_refl s)) as (_ & a & _ & H); exact H.
Qed.

(** * The payloads of page responses *)

Lemma emitted_Forall (Φ : effect → Prop) t ev payload :
  Forall Φ t → (ev, payload) ∈ emitted t → Φ (Emit ev payload).
Proof.
  intros Ht Hin. apply list_elem_of_omap in Hin as (e & He & Heq).
  rewrite Forall_forall in Ht. specialize (Ht e He).
  destruct e; try done. by injection Heq as -> ->.
Qed.

(** C10. Whatever the world and the state, a [pagesPreloaded] response is an
    error or a list of entries whose fields are exactly [pageNum], [width],
    [height], [imageUrl] and [timestamp]: an entry has no [imageBase64], only
    the reference [imageUrl]; a [pageData] response is an error or has these
    fields and [imageBase64] as well. *)
Theorem preloaded_entries_carry_no_inline_image (w : world) (s : state) :
  (∀ data ev payload,
     (ev, payload) ∈ emitted (trace (handle_preload_pages w data s)) →
     ev = "pagesPreloaded" ∧
     ((∃ x, payload = error_payload x) ∨
      (∃ pages, payload = JObj [("pages", JList pages)] ∧
         Forall (λ entry, keys entry = preloaded_keys ∧
                          get_field "imageBase64" entry = None ∧
                          ∃ url, get_field "imageUrl" entry = Some (JStr url)) pages))) ∧
  (∀ data ev payload,
     (ev, payload) ∈ emitted (trace (handle_request_page w data s)) →
     ev = "pageData" ∧
     ((∃ x, payload = error_payload x) ∨
      (keys payload = page_data_keys ∧
       ∃ b64, get_field "imageBase64" payload = Some (JStr b64)))).
Proof.
  split; intros data ev payload Hin.
  - destruct (triple_final _ _ _ _ s (handle_preload_pages_spec w data s) (served_refl s))
      as (Ht & _).
    destruct (emitted_Forall _ _ _ _ Ht Hin) as [-> [Herr|(pages & -> & Hp)]];
      (split; [done|]); [by left|]. right. exists pages. split; [done|].
    eapply Forall_impl; [exact Hp|].
    intros entry (page & image_url & ->). repeat split. by eexists.
  - destruct (triple_final _ _ _ _ s (handle_request_page_spec w data s) (served_refl s))
      as (Ht & _).
    destruct (emitted_Forall _ _ _ _ Ht Hin) as [-> [Herr|(page & image_url & ->)]];
      (split; [done|]); [by left|]. right. split; [done|]. by eexists.
Qed.

(** Both kinds of successful response occur: the sample document viewed by
    one client. *)
Example preload_and_request_succeed :
  emitted (trace (handle (sample_world 1002)
             (PreloadPages {| pageNums := [2]; preload_options := None |})
             viewing_state))
  = [("pagesPreloaded",
      JObj [("pages",
             JList [JObj [("pageNum", JInt 2); ("width", JInt 543);
                          ("height", JInt 768);
                          ("imageUrl",
                           JStr "http://localhost:5000/pages/session_1000_0a1b2c3d/page_2.png");
                          ("timestamp", JInt 1002)]])])] ∧
  emitted (trace (handle (sample_world 1002) (request 2) viewing_state))
  = [("pageData",
      JObj [("pageNum", JInt 2); ("width", JInt 724); ("height", JInt 1024);
            ("imageUrl",
             JStr "http://localhost:5000/pages/session_1000_0a1b2c3d/page_2.png");
            ("imageBase64", JStr "UE5H"); ("timestamp", JInt 1002)])].
Proof. vm_compute. split; reflexivity. Qed.

(** * Last activity *)

Lemma served_last_activities s0 s :
  served s0 s → last_activities s = last_activities s0.
Proof.
  intros [_ H]. unfold last_activities.
  induction H as [|kv0 kv l0 l (Hk & _ & Ha & _) _ IH]; [done|].
  rewrite !fmap_cons. f_equal; [by rewrite Hk, Ha | exact IH].
Qed.

(** What the handlers do with the timestamp: [loadPDF], [requestPage],
    [preloadPages] and [ping] leave [last_activity] of every session as it
    was.  After any sequence of such events, in any worlds, each session
    still carries the timestamp [handle_connect] wrote when the session was
    created; no handler after [connect] assigns the field. *)
Theorem activity_events_keep_last_activity (evs : list (world * event)) (s : state) :
  Forall (λ we, is_activity we.2 = true) evs →
  last_activities (run evs s).1 = last_activities s.
Proof.
  intros H. revert s. induction H as [|[w ev] evs Hev _ IH]; intros s; [done|].
  simpl. rewrite IH. apply served_last_activities, handle_served.
  - by destruct ev.
  - by destruct ev.
Qed.

Lemma activity_events_keep_last_activity_witness :
  let s := (run [(sample_world 1000, Connect)] initial_state).1 in
  Forall (λ we, is_activity we.2 = true) busy_client ∧
  last_activities (run busy_client s).1 = last_activities s.
Proof.
  intros s.
  assert (H : Forall (λ we, is_activity we.2 = true) busy_client)
    by (repeat constructor).
  split; [exact H|].
  exact (activity_events_keep_last_activity busy_client s H).
Defined.

(** C3, at the failing input.  A client connects at time 1000, then loads a
    document, requests a page, preloads two and pings between 2000 and 2003.
    The session's [last_activity] is still 1000 after these events, where
    the field's name, its use by the sweep and the keepalive [ping] call for
    2003; the sweep at 2900, less than 30 minutes after each of the events,
    then removes the session of a client that was active 15 minutes ago. *)
Lemma activity_does_not_refresh_session :
  let s := (run [(sample_world 1000, Connect)] initial_state).1 in
  let s' := (run busy_client s).1 in
  last_activities s' = [("session_1000_0a1b2c3d", 1000)] ∧
  2900 - 2003 < timeout ∧
  sessions (final (handle (sample_world 2900) Cleanup s')) = [].
Proof. vm_compute. repeat split; reflexivity. Qed.

(** * Bound documents are cached *)

Lemma served_bound_in_cache s0 s :
  bound_in_cache s0 → served s0 s → bound_in_cache s.
Proof.
  intros H0 [Hc Hs] k v p Hin Hp.
  apply list_elem_of_lookup in Hin as [i Hi].
  destruct (Forall2_lookup_r _ _ _ _ _ Hs Hi) as ([k0 v0] & Hi0 & Hk & _ & _ & Hb).
  simpl in *. destruct Hb as [Hb|(p' & Hb & Hin)].
  - eapply lookup_weaken_is_Some; [|exact Hc].
    eapply (H0 k0 v0); [by eapply list_elem_of_lookup_2|congruence].
  - congruence.
Qed.

(** The sweep keeps any property of the state that holds on to the removal
    of a directory and of a session record. *)
Lemma cleanup_loop_preserves w current_time items (P : state → Prop) :
  (∀ s d, P s → P (set_temp_pages d s)) →
  (∀ s k, P s → P (set_sessions (dict_remove k (sessions s)) s)) →
  triple (λ _, True) P (cleanup_loop w current_time items)
    (λ _ s, P s) (λ _ s, P s).
Proof.
  intros Htemp Hdel.
  induction items as [|[session_id session_data] rest IH]; simpl.
  { by apply triple_ret. }
  apply triple_bind with (Q := λ _ s, P s); [|intros _; exact IH].
  destruct (timeout <? current_time - last_activity session_data);
    [|by apply triple_ret].
  apply triple_bind with (Q := λ _ s, P s); [by apply triple_get|].
  intros s'. apply triple_bind with (Q := λ _ s, P s).
  - destruct (bool_decide _); [|by apply triple_ret].
    apply triple_bind with (Q := λ _ s, P s); [|intros _; by apply triple_tell].
    apply triple_bind with (Q := λ _ s, P s).
    + apply triple_call. intros s Hs. split; [done|]. by destruct (outcome_of _).
    + intros _. apply triple_modify. intros s Hs. by apply Htemp.
  - intros _. unfold del_session.
    apply triple_bind with (Q := λ _ s, P s); [by apply triple_get|].
    intros s''. destruct (dict_has _ _); [|by apply triple_raise].
    apply triple_modify. intros s Hs. by apply Hdel.
Qed.

Lemma cleanup_old_sessions_preserves w (P : state → Prop) s :
  (∀ s d, P s → P (set_temp_pages d s)) →
  (∀ s k, P s → P (set_sessions (dict_remove k (sessions s)) s)) →
  P s → P (final (cleanup_old_sessions w s)).
Proof.
  intros Htemp Hdel Hs.
  assert (H : triple (λ _, True) P (cleanup_old_sessions w)
                (λ _ s', P s') (λ _ _, False)).
  { unfold cleanup_old_sessions.
    apply triple_try with (E' := λ _ s', P s').
    - apply triple_bind with (Q := λ _ s', P s'); [by apply triple_get|].
      intros s'. by apply cleanup_loop_preserves.
    - intros e. by apply triple_tell. }
  destruct (triple_final _ _ _ _ s H Hs) as (_ & a & _ & Hs'). exact Hs'.
Qed.

Lemma cleanup_old_sessions_shrinks w s :
  shrunk s (final (cleanup_old_sessions w s)).
Proof.
  apply cleanup_old_sessions_preserves; [done| |by split].
  intros s1 k [Hs Hc]. split; [|done]. simpl.
  intros kv Hkv. apply Hs. unfold dict_remove in Hkv.
  by apply list_elem_of_filter in Hkv as [_ ?].
Qed.

Lemma elem_of_dict_set {V} (k : string) (v : V) d kv :
  kv ∈ dict_set k v d → kv = (k, v) ∨ kv ∈ d.
Proof.
  induction d as [|[k' v'] d IH]; simpl.
  - intros ->%list_elem_of_singleton. by left.
  - destruct (decide (k' = k)) as [->|Hne].
    + intros [->|Hin]%elem_of_cons; [by left|]. right. by right.
    + intros [->|Hin]%elem_of_cons; [right; by left|].
      destruct (IH Hin) as [->|?]; [by left|]. right. by right.
Qed.

Lemma handle_preserves_bound_in_cache w ev s :
  bound_in_cache s → bound_in_cache (final (handle w ev s)).
Proof.
  intros Hs.
  assert (Hserved : ev ≠ Connect → ev ≠ Cleanup →
                    bound_in_cache (final (handle w ev s))).
  { intros Hc Hl. eapply served_bound_in_cache; [exact Hs|]. by apply handle_served. }
  destruct ev; try (by apply Hserved).
  - intros k v p Hin Hp. simpl in Hin.
    apply elem_of_dict_set in Hin as [[= -> ->]|Hin]; [done|].
    by eapply Hs.
  - destruct (cleanup_old_sessions_shrinks w s) as [Hsub Hcache].
    intros k v p Hin Hp. simpl in *. rewrite Hcache.
    eapply Hs; [by apply Hsub|done].
Qed.

Lemma handle_load_pdf_failure w data s :
  load_fails w data s →
  final (handle_load_pdf w data s) = s ∧
  ∃ msg, emitted (trace (handle_load_pdf w data s))
         = [("pdfLoaded", JObj [("success", JBool false); ("error", JStr msg)])].
Proof.
  unfold load_fails, handle_load_pdf, try_except. intros [Hx|(Hc & e & He)].
  - rewrite Hx. simpl. split; [done|]. by eexists.
  - destruct (path_exists w (pdf_path_of (pdfId data))); simpl.
    + pose proof (load_pdf_miss w _ _ Hc) as Hl. rewrite He in Hl.
      rewrite (run_bind_raise _ _ _ _ _ _ Hl). simpl. split; [done|]. by eexists.
    + split; [done|]. by eexists.
Qed.

(** A load that does not fail answers with [success: True]. *)
Lemma handle_load_pdf_success w data s :
  ¬ load_fails w data s →
  ∃ info, emitted (trace (handle_load_pdf w data s))
          = [("pdfLoaded",
              JObj [("success", JBool true); ("pdfId", JStr (pdfId data));
                    ("totalPages", JInt (total_pages info));
                    ("metadata", metadata_json (metadata info))])].
Proof.
  unfold load_fails, handle_load_pdf, try_except. intros Hok.
  destruct (path_exists w (pdf_path_of (pdfId data))) eqn:Hx; [|tauto]. simpl.
  assert (∃ info s1 t1, load_pdf w (pdf_path_of (pdfId data)) s = (inr info, s1, t1)
                        ∧ emitted t1 = []) as (info & s1 & t1 & Hl & Ht).
  { destruct (pdf_cache s !! pdf_path_of (pdfId data)) as [info|] eqn:Hc.
    - eexists _, _, _. split; [by apply load_pdf_hit|done].
    - rewrite (load_pdf_miss w _ _ Hc).
      destruct (fitz_open w (pdf_path_of (pdfId data))) as [e|doc] eqn:He.
      + exfalso. apply Hok. right. split; [done|]. by exists e.
      + eexists _, _, _. split; [reflexivity|done]. }
  exists info. rewrite (run_bind _ _ _ _ _ _ Hl). simpl.
  rewrite bind_get.
  destruct (find_session (sessions s1)) as [[i kv]|];
    unfold trace; simpl; by rewrite emitted_app, Ht.
Qed.

(** C6. In every state the server can reach, a session that has a document
    path has one that is a key of [pdf_cache].  A [loadPDF] that fails
    (the file is missing, or it is not cached and cannot be opened) leaves
    the whole state, so every session's path, as it was and answers with a
    failure payload; and any load answered with [success: False] has left
    the state as it was. *)
Theorem bound_document_is_cached :
  (∀ s, reachable s → bound_in_cache s) ∧
  (∀ w data s, load_fails w data s →
     final (handle_load_pdf w data s) = s ∧
     ∃ msg, emitted (trace (handle_load_pdf w data s))
            = [("pdfLoaded", JObj [("success", JBool false); ("error", JStr msg)])]) ∧
  (∀ w data s payload,
     ("pdfLoaded", payload) ∈ emitted (trace (handle_load_pdf w data s)) →
     get_field "success" payload = Some (JBool false) →
     final (handle_load_pdf w data s) = s).
Proof.
  split; [|split].
  - induction 1 as [|s w ev _ IH].
    + intros k v p Hin. by apply elem_of_nil in Hin.
    + by apply handle_preserves_bound_in_cache.
  - apply handle_load_pdf_failure.
  - intros w data s payload Hin Hf.
    assert (Hd : load_fails w data s ∨ ¬ load_fails w data s).
    { unfold load_fails.
      destruct (path_exists w (pdf_path_of (pdfId data))); [|by left; left].
      destruct (pdf_cache s !! pdf_path_of (pdfId data)) as [info|].
      - right. intros [?|[? _]]; done.
      - destruct (fitz_open w (pdf_path_of (pdfId data))) as [e|doc].
        + left. right. split; [done|]. by exists e.
        + right. intros [?|[_ [e ?]]]; done. }
    destruct Hd as [Hd|Hd]; [by apply handle_load_pdf_failure|].
    destruct (handle_load_pdf_success w data s Hd) as [info Hs].
    rewrite Hs in Hin. apply list_elem_of_singleton in Hin.
    injection Hin as ->. discriminate Hf.
Qed.

(** The invariant is not empty: a reachable state with a bound session. *)
Example viewing_state_reachable :
  reachable viewing_state ∧
  sessions viewing_state
  = [("session_1000_0a1b2c3d",
      {| sid := "session_1000_0a1b2c3d"; current_pdf := Some "pdfs/sample.pdf";
         last_activity := 1000 |})].
Proof.
  split; [|vm_compute; reflexivity].
  exact (reachable_step _ (sample_world 1001) sample_load
           (reachable_step _ (sample_world 1000) Connect reachable_initial)).
Qed.

(** * Preloading *)

Section Preload.

Context (w : world).

Lemma preload_loop_run info session_data quality page_nums pages s :
  pages_go_well w info session_data quality page_nums →
  ∃ new s' t,
    preload_loop w info session_data quality page_nums pages s
    = (inr (pages ++ new), s', t) ∧
    emitted t = [] ∧
    Forall2 entry_for (filter (in_document info) page_nums) new.
Proof.
  revert pages s. induction page_nums as [|n rest IH]; intros pages s Hok; simpl.
  { exists [], s, []. rewrite app_nil_r. repeat split. constructor. }
  assert (Hrest : pages_go_well w info session_data quality rest).
  { intros m Hm. apply Hok. by right. }
  destruct ((1 <=? n) && (n <=? total_pages info)) eqn:Hn.
  - assert (Hin : in_document info n) by (unfold in_document; lia).
    destruct (Hok n) as [(page & pix & Hpage & Hpix) Hw]; [by left|done|].
    pose proof (render_page_run w (document info) n quality s) as Hr.
    rewrite Hpage, Hpix in Hr. rewrite (run_bind _ _ _ _ _ _ Hr).
    pose proof (save_page_image_run w (image_data (rendered w n quality pix))
                  (sid session_data) n s) as Hs.
    rewrite Hw in Hs. rewrite (run_bind _ _ _ _ _ _ Hs).
    edestruct (IH (pages ++ [preloaded_entry (rendered w n quality pix)
                               ("/pages/" +:+ sid session_data +:+ "/" +:+ page_filename n)])
                 (saved (image_data (rendered w n quality pix)) (sid session_data) n s)
                 Hrest)
      as (new & s' & t & -> & Ht & Hnew).
    eexists (_ :: new), s', _. simpl. split; [|split].
    + by rewrite <- app_assoc.
    + exact Ht.
    + rewrite filter_cons_True by done. constructor; [|done].
      split; [by eexists _, _|]. split; reflexivity.
  - assert (Hout : ¬ in_document info n) by (unfold in_document; lia).
    destruct (IH pages s Hrest) as (new & s' & t & -> & Ht & Hnew).
    exists new, s', t. rewrite filter_cons_False by done. done.
Qed.

End Preload.

(** C5, as amended.  A client's session is bound to a cached document and
    rendering and saving go well for the requested pages that are in the
    document.  Then
    [preloadPages] is answered by one [pagesPreloaded] response whose
    [pages] list has one entry for each requested number in
    [1, total_pages], in the order of the request, and nothing for the
    other numbers: no entry and no error. *)
Theorem preload_returns_pages_in_range_in_order (w : world) (data : preload_pages_data)
    (s : state) (session_data : session) (pdf_path : string) (info : pdf_info) :
  bound_session s = Some (session_data, pdf_path) →
  pdf_cache s !! pdf_path = Some info →
  pages_go_well w info session_data
    (quality_or "medium" (preload_options data)) (pageNums data) →
  ∃ pages,
    emitted (trace (handle_preload_pages w data s))
    = [("pagesPreloaded", JObj [("pages", JList pages)])] ∧
    Forall2 entry_for (filter (in_document info) (pageNums data)) pages.
Proof.
  intros Hb Hc Hok.
  destruct (preload_loop_run w info session_data _ (pageNums data) [] s Hok)
    as (pages & s' & t & Hl & Ht & Hp).
  exists pages. split; [|exact Hp].
  unfold handle_preload_pages, try_except. rewrite bind_get, Hb.
  rewrite (run_bind _ _ _ _ _ _ (load_pdf_hit w _ _ _ Hc)).
  rewrite (run_bind _ _ _ _ _ _ Hl). unfold trace; simpl.
  by rewrite emitted_app, Ht.
Qed.

Lemma preload_returns_pages_in_range_in_order_witness :
  let data := {| pageNums := [0; 3; 7; 1; -1; 2]; preload_options := None |} in
  let info := {| document := sample_doc; total_pages := 3;
                 path := "pdfs/sample.pdf"; metadata := metadata_of sample_doc |} in
  filter (in_document info) (pageNums data) = [3; 1; 2] ∧
  ∃ pages,
    emitted (trace (handle_preload_pages (sample_world 1002) data viewing_state))
    = [("pagesPreloaded", JObj [("pages", JList pages)])] ∧
    Forall2 entry_for [3; 1; 2] pages.
Proof.
  intros data info. split; [reflexivity|].
  apply (preload_returns_pages_in_range_in_order (sample_world 1002) data viewing_state
           {| sid := "session_1000_0a1b2c3d"; current_pdf := Some "pdfs/sample.pdf";
              last_activity := 1000 |} "pdfs/sample.pdf" info).
  - vm_compute. reflexivity.
  - vm_compute. reflexivity.
  - intros n _ [H1 H3]. split; [|reflexivity].
    unfold renders_ok. simpl in *. unfold sample_load_page. simpl.
    destruct (n - 1 <? 3) eqn:Hlt; [|lia]. by eexists _, _.
Defined.

(** C5 as stated fails.  The first session views the three-page sample and
    asks for pages 0, 1, 2, 7 and 3; pages 1, 2 and 3 are in the document.
    The renderer fails on page 2, and the response is one error payload: it
    has no [pages] list, so neither page 1, rendered before the failure, nor
    page 3 is in it. *)
Lemma preload_failure_replaces_page_list :
  let data := {| pageNums := [0; 1; 2; 7; 3]; preload_options := None |} in
  let info := info_of "pdfs/sample.pdf" sample_doc in
  bound_session viewing_state
  = Some ({| sid := "session_1000_0a1b2c3d"; current_pdf := Some "pdfs/sample.pdf";
             last_activity := 1000 |}, "pdfs/sample.pdf") ∧
  pdf_cache viewing_state !! "pdfs/sample.pdf" = Some info ∧
  filter (in_document info) (pageNums data) = [1; 2; 3] ∧
  emitted (trace (handle_preload_pages (torn_world 1002) data viewing_state))
  = [("pagesPreloaded", error_payload "cannot rasterise page")] ∧
  ¬ ∃ pages,
      emitted (trace (handle_preload_pages (torn_world 1002) data viewing_state))
      = [("pagesPreloaded", JObj [("pages", JList pages)])].
Proof.
  intros data info.
  assert (He : emitted (trace (handle_preload_pages (torn_world 1002) data viewing_state))
               = [("pagesPreloaded", error_payload "cannot rasterise page")])
    by (vm_compute; reflexivity).
  split; [vm_compute; reflexivity|]. split; [vm_compute; reflexivity|].
  split; [reflexivity|]. split; [exact He|].
  intros [pages Hp]. rewrite He in Hp. discriminate Hp.
Qed.

(** * The cleanup sweep *)

Section Sweep.

Context (w : world).

(** One round of the loop, case by case. *)
Lemma cleanup_loop_cons current_time k v rest s :
  cleanup_loop w current_time ((k, v) :: rest) s
  = if expired current_time v then
      let del s1 t0 :=
        if dict_has k (sessions s1) then
          after t0 (cleanup_loop w current_time rest
                      (set_sessions (dict_remove k (sessions s1)) s1))
        else (inl ("'" +:+ k +:+ "'"), s1, t0) in
      if bool_decide (is_Some (temp_pages s !! k)) then
        match rmtree_error w k with
        | Some e => (inl e, s, [Rmtree k])
        | None =>
            del (set_temp_pages (delete k (temp_pages s)) s)
                [Rmtree k; Log INFO ("Cleaned up session: " +:+ k)]
        end
      else del s []
    else cleanup_loop w current_time rest s.
Proof.
  simpl. unfold expired.
  destruct (timeout <? current_time - last_activity v); [|by rewrite bind_ret_l].
  rewrite bind_assoc, bind_get, bind_assoc.
  assert (Hdel : ∀ s1,
    bind (del_session k) (λ _, cleanup_loop w current_time rest) s1
    = if dict_has k (sessions s1) then
        cleanup_loop w current_time rest
          (set_sessions (dict_remove k (sessions s1)) s1)
      else (inl ("'" +:+ k +:+ "'"), s1, [])).
  { intros s1. unfold del_session. rewrite bind_assoc, bind_get.
    destruct (dict_has k (sessions s1)); [by rewrite bind_modify|done]. }
  destruct (bool_decide (is_Some (temp_pages s !! k))).
  - unfold rmtree. rewrite !bind_assoc, bind_call.
    destruct (rmtree_error w k) as [e|]; [done|]. simpl.
    rewrite bind_modify. unfold logger_info. rewrite bind_tell, after_after, Hdel.
    simpl. by destruct (dict_has k (sessions s)).
  - rewrite bind_ret_l, Hdel.
    destruct (dict_has k (sessions s)); [by rewrite after_nil|done].
Qed.

End Sweep.

Lemma filter_all {A} (P : A → Prop) `{∀ x, Decision (P x)} (l : list A) :
  Forall P l → filter P l = l.
Proof.
  induction 1 as [|x l Hx _ IH]; [done|]. by rewrite filter_cons_True, IH.
Qed.

Lemma dict_remove_middle {V} (pre post : list (string * V)) k v :
  NoDup (pre ++ (k, v) :: post).*1 →
  dict_remove k (pre ++ (k, v) :: post) = pre ++ post.
Proof.
  rewrite fmap_app, fmap_cons. simpl. intros (Hpre & Hdisj & Hpost)%NoDup_app.
  apply NoDup_cons in Hpost as [Hk _].
  unfold dict_remove. rewrite filter_app, filter_cons_False by (simpl; tauto).
  rewrite !filter_all; [done|..]; apply Forall_forall; intros [k' v'] Hin Heq;
    simpl in *; subst k'.
  - apply Hk. by apply (list_elem_of_fmap_2 fst _ (k, v')).
  - apply (Hdisj k); [|by left]. by apply (list_elem_of_fmap_2 fst _ (k, v')).
Qed.

Lemma dict_has_middle {V} (pre post : list (string * V)) k v :
  dict_has k (pre ++ (k, v) :: post) = true.
Proof.
  unfold dict_has. apply bool_decide_eq_true.
  rewrite fmap_app, fmap_cons. apply elem_of_app. right. by left.
Qed.

Lemma NoDup_keys_drop {V} (pre post : list (string * V)) kv :
  NoDup (pre ++ kv :: post).*1 →
  NoDup (pre ++ post).*1 ∧ ∀ kv', kv' ∈ post → kv'.1 ≠ kv.1.
Proof.
  rewrite !fmap_app, fmap_cons. intros (Hpre & Hd & Hpost)%NoDup_app.
  apply NoDup_cons in Hpost as [Hk Hpost]. split.
  - apply NoDup_app. repeat split; [done| |done].
    intros x Hx Hin. apply (Hd x Hx). by right.
  - intros kv' Hin Heq. apply Hk. rewrite <- Heq. by apply list_elem_of_fmap_2.
Qed.

Section SweepRun.

Context (w : world).

(** The loop over [done ++ tail], where no session of [done] blocks and
    [tail] is empty or starts with one that does; [pre] are the sessions
    already passed and kept. *)
Lemma cleanup_loop_run current_time done : ∀ tail pre s,
  NoDup (pre ++ done ++ tail).*1 →
  sessions s = pre ++ done ++ tail →
  Forall (λ kv, ¬ blocks w (temp_pages s) current_time kv) done →
  (tail = [] ∨ ∃ kv rest, tail = kv :: rest ∧ blocks w (temp_pages s) current_time kv) →
  let r := cleanup_loop w current_time (done ++ tail) s in
  sessions (final r) = pre ++ filter (fresh current_time) done ++ tail ∧
  pdf_cache (final r) = pdf_cache s ∧
  (∀ k, temp_pages (final r) !! k
        = if decide (k ∈ (filter (stale current_time) done).*1) then None
          else temp_pages s !! k) ∧
  match tail with
  | [] => result r = inr tt
  | kv :: _ => ∃ e, rmtree_error w kv.1 = Some e ∧ result r = inl e
  end.
Proof.
  induction done as [|[k v] done IH]; intros tail pre s Hnd Hs Hdone Htail r.
  - subst r. simpl app in *.
    destruct Htail as [->|([k v] & rest & -> & Hst & Hdir & e & He)].
    { unfold final, result. simpl. repeat split; done. }
    rewrite cleanup_loop_cons. unfold stale in Hst. simpl in *. rewrite Hst.
    rewrite bool_decide_eq_true_2 by done. rewrite He.
    unfold final, result; simpl. repeat split; try done. by exists e.
  - subst r. apply Forall_cons in Hdone as [Hkv Hdone]. simpl app.
    rewrite cleanup_loop_cons.
    destruct (expired current_time v) eqn:Hex.
    + (* stale: the directory goes if it is there, then the record *)
      assert (Hgo : ∀ s1 t0,
        sessions s1 = sessions s → pdf_cache s1 = pdf_cache s →
        (∀ k', temp_pages s1 !! k' = if decide (k' = k) then None else temp_pages s !! k') →
        let r := (if dict_has k (sessions s1)
                  then after t0 (cleanup_loop w current_time (done ++ tail)
                                   (set_sessions (dict_remove k (sessions s1)) s1))
                  else (inl ("'" +:+ k +:+ "'"), s1, t0)) in
        sessions (final r) = pre ++ filter (fresh current_time) ((k, v) :: done) ++ tail ∧
        pdf_cache (final r) = pdf_cache s ∧
        (∀ k', temp_pages (final r) !! k'
               = if decide (k' ∈ (filter (stale current_time) ((k, v) :: done)).*1)
                 then None else temp_pages s !! k') ∧
        match tail with
        | [] => result r = inr tt
        | kv :: _ => ∃ e, rmtree_error w kv.1 = Some e ∧ result r = inl e
        end).
      { intros s1 t0 Hs1 Hc1 Ht1 r. subst r.
        rewrite Hs1, Hs. simpl app. rewrite dict_has_middle, dict_remove_middle by done.
        rewrite final_after, result_after.
        destruct (NoDup_keys_drop _ _ _ Hnd) as (Hnd' & Hother).
        assert (Hblocks : ∀ kv, kv ∈ done ++ tail →
                  blocks w (temp_pages s1) current_time kv
                  ↔ blocks w (temp_pages s) current_time kv).
        { intros kv Hin. unfold blocks. rewrite Ht1.
          destruct (decide (kv.1 = k)) as [Heq|_]; [|done].
          by apply Hother in Hin. }
        destruct (IH tail pre (set_sessions (pre ++ done ++ tail) s1))
          as (H1 & H2 & H3 & H4).
        - exact Hnd'.
        - done.
        - simpl. apply Forall_forall. intros kv Hin Hb.
          rewrite Forall_forall in Hdone. apply (Hdone kv Hin).
          apply Hblocks; [|done]. apply elem_of_app. by left.
        - simpl. destruct Htail as [->|(kv & rest & -> & Hb)]; [by left|].
          right. exists kv, rest. split; [done|].
          apply Hblocks; [|done]. apply elem_of_app. right. by left.
        - split; [|split; [|split]].
          + rewrite H1. rewrite (filter_cons_False (fresh current_time)); [done|].
            unfold fresh. simpl. by rewrite Hex.
          + by rewrite H2.
          + intros k'. rewrite H3. simpl.
            rewrite (filter_cons_True (stale current_time)) by done.
            rewrite fmap_cons. simpl.
            destruct (decide (k' ∈ (filter (stale current_time) done).*1)) as [Hin|Hout].
            * rewrite decide_True; [done|]. by right.
            * rewrite Ht1. destruct (decide (k' = k)) as [->|Hne].
              -- rewrite decide_True; [done|]. by left.
              -- rewrite decide_False; [done|].
                 intros [?|?]%elem_of_cons; done.
          + exact H4. }
      destruct (bool_decide (is_Some (temp_pages s !! k))) eqn:Hdir.
      * apply bool_decide_eq_true in Hdir.
        destruct (rmtree_error w k) as [e|] eqn:He.
        { exfalso. apply Hkv. split; [done|]. split; [done|]. by exists e. }
        apply Hgo; [done..|]. intros k'. simpl.
        destruct (decide (k' = k)) as [->|Hne];
          [apply lookup_delete_eq | by apply lookup_delete_ne].
      * apply bool_decide_eq_false in Hdir.
        apply Hgo; [done..|]. intros k'.
        destruct (decide (k' = k)) as [->|Hne]; [|done].
        by apply eq_None_not_Some.
    + (* fresh: the session is passed over *)
      destruct (IH tail (pre ++ [(k, v)]) s) as (H1 & H2 & H3 & H4).
      * by rewrite <- app_assoc.
      * by rewrite <- app_assoc.
      * exact Hdone.
      * exact Htail.
      * split; [|split; [|split]].
        -- rewrite H1, <- app_assoc.
           rewrite (filter_cons_True (fresh current_time)); done.
        -- exact H2.
        -- intros k'. rewrite H3.
           rewrite (filter_cons_False (stale current_time)); [done|].
           unfold stale. simpl. by rewrite Hex.
        -- exact H4.
Qed.

End SweepRun.

Section SweepTheorems.

Context (w : world).

(** Any table splits at its first blocking session, if it has one. *)
Lemma split_at_block temp t (items : list (string * session)) :
  ∃ done tail, items = done ++ tail ∧
    Forall (λ kv, ¬ blocks w temp t kv) done ∧
    (tail = [] ∨ ∃ kv rest, tail = kv :: rest ∧ blocks w temp t kv).
Proof.
  induction items as [|kv items (done & tail & -> & Hdone & Htail)].
  { exists [], []. repeat split; [constructor|by left]. }
  destruct (decide (blocks w temp t kv)) as [Hb|Hb].
  - exists [], (kv :: done ++ tail). repeat split; [constructor|].
    right. by exists kv, (done ++ tail).
  - exists (kv :: done), tail. repeat split; [by constructor|done].
Qed.

Lemma cleanup_old_sessions_final s :
  final (cleanup_old_sessions w s)
  = final (cleanup_loop w (now w) (sessions s) s).
Proof.
  unfold cleanup_old_sessions, try_except. rewrite bind_get.
  by destruct (cleanup_loop w (now w) (sessions s) s) as [[[e|[]] s1] t1].
Qed.

Lemma cleanup_old_sessions_logs s e :
  result (cleanup_loop w (now w) (sessions s) s) = inl e →
  Log ERROR ("Cleanup error: " +:+ e) ∈ trace (cleanup_old_sessions w s).
Proof.
  unfold cleanup_old_sessions, try_except. rewrite bind_get.
  destruct (cleanup_loop w (now w) (sessions s) s) as [[[e'|[]] s1] t1];
    unfold result, trace; simpl; [|done].
  intros [= ->]. apply elem_of_app. right. by left.
Qed.

End SweepTheorems.

Lemma NoDup_keys_inj {V} (l : list (string * V)) k v v' :
  NoDup l.*1 → (k, v) ∈ l → (k, v') ∈ l → v = v'.
Proof.
  induction l as [|[k0 v0] l IH]; simpl.
  { intros _ Hin. by apply elem_of_nil in Hin. }
  intros [Hk Hnd]%NoDup_cons [Hin|Hin]%elem_of_cons [Hin'|Hin']%elem_of_cons.
  - congruence.
  - injection Hin as -> ->. exfalso. apply Hk.
    by apply (list_elem_of_fmap_2 fst _ (k0, v')).
  - injection Hin' as -> ->. exfalso. apply Hk.
    by apply (list_elem_of_fmap_2 fst _ (k0, v)).
  - by apply IH.
Qed.

(** C8, as amended.  The table has one record per session id.  After a sweep,
    a session whose last activity is at most 30 minutes old is there with the
    record and the directory it had; the table holds nothing new; a session
    that is gone was older than 30 minutes and has no directory left; and
    when no directory of an expired session fails to be removed, the
    sessions left are exactly those not older than 30 minutes. *)
Theorem sweep_removes_expired_sessions (w : world) (s : state) :
  NoDup (sessions s).*1 →
  let s' := final (cleanup_old_sessions w s) in
  (∀ k v, (k, v) ∈ sessions s → expired (now w) v = false →
          (k, v) ∈ sessions s' ∧ temp_pages s' !! k = temp_pages s !! k) ∧
  (∀ kv, kv ∈ sessions s' → kv ∈ sessions s) ∧
  (∀ k v, (k, v) ∈ sessions s → k ∉ (sessions s').*1 →
          expired (now w) v = true ∧ temp_pages s' !! k = None) ∧
  ((∀ k v, (k, v) ∈ sessions s → expired (now w) v = true →
           is_Some (temp_pages s !! k) → rmtree_error w k = None) →
   sessions s' = filter (fresh (now w)) (sessions s)) ∧
  pdf_cache s' = pdf_cache s.
Proof.
  intros Hnd s'. subst s'. rewrite cleanup_old_sessions_final.
  destruct (split_at_block w (temp_pages s) (now w) (sessions s))
    as (done & tail & Hs & Hdone & Htail).
  destruct (cleanup_loop_run w (now w) done tail [] s) as (H1 & H2 & H3 & H4);
    [by rewrite <- Hs|done..|].
  rewrite <- Hs in H1, H2, H3, H4. clear H4.
  simpl in H1. rewrite H1. split; [|split; [|split; [|split]]].
  - intros k v Hin Hfresh. split.
    + rewrite Hs in Hin. apply elem_of_app in Hin as [Hin|Hin]; apply elem_of_app;
        [left|by right]. by apply list_elem_of_filter.
    + rewrite H3. rewrite decide_False; [done|].
      intros ([k' v'] & Hk & [Hst Hin']%list_elem_of_filter)%list_elem_of_fmap.
      simpl in Hk. subst k'. unfold stale in Hst. simpl in Hst.
      assert (v = v') as <-; [|congruence].
      eapply NoDup_keys_inj; [exact Hnd|exact Hin|].
      rewrite Hs. apply elem_of_app. by left.
  - intros kv [[_ Hin]%list_elem_of_filter|Hin]%elem_of_app;
      rewrite Hs; apply elem_of_app; [by left|by right].
  - intros k v Hin Hout. rewrite Hs in Hin.
    assert (Hst : stale (now w) (k, v) ∧ (k, v) ∈ done).
    { apply elem_of_app in Hin as [Hin|Hin].
      - split; [|done]. unfold stale. simpl.
        destruct (expired (now w) v) eqn:Hex; [done|].
        exfalso. apply Hout. apply (list_elem_of_fmap_2 fst _ (k, v)).
        apply elem_of_app. left. by apply list_elem_of_filter.
      - exfalso. apply Hout. apply (list_elem_of_fmap_2 fst _ (k, v)).
        apply elem_of_app. by right. }
    destruct Hst as [Hst Hd]. split; [exact Hst|].
    rewrite H3. rewrite decide_True; [done|].
    apply (list_elem_of_fmap_2 fst _ (k, v)). by apply list_elem_of_filter.
  - intros Hok. destruct Htail as [->|([k v] & rest & -> & Hst & Hdir & e & He)].
    + rewrite !app_nil_r in *. by rewrite Hs.
    + simpl in He. rewrite (Hok k v) in He; [done| |exact Hst|exact Hdir].
      rewrite Hs. apply elem_of_app. right. by left.
  - exact H2.
Qed.

Lemma sweep_removes_expired_sessions_witness :
  NoDup (sessions sweep_state).*1 ∧
  sessions (final (cleanup_old_sessions (sample_world 3000) sweep_state))
  = filter (fresh 3000) (sessions sweep_state) ∧
  (sessions (final (cleanup_old_sessions (sample_world 3000) sweep_state))).*1
  = ["session_2500_0a1b2c3d"].
Proof.
  assert (H : NoDup (sessions sweep_state).*1).
  { apply (bool_decide_unpack _). vm_compute. reflexivity. }
  split; [exact H|].
  destruct (sweep_removes_expired_sessions (sample_world 3000) sweep_state H)
    as (_ & _ & _ & Hall & _).
  split; [|vm_compute; reflexivity].
  apply Hall. intros k v _ _ _. reflexivity.
Defined.

(** C8 as stated fails.  Two sessions, last active at 1000 and at 2500, are
    both older than 30 minutes at 4400, so the sweep should remove both.
    The directory of the first cannot be removed: the sweep ends there and
    the table still holds both sessions, the second, for which nothing
    failed, included. *)
Lemma expired_sessions_survive_failed_removal :
  let w := stuck_world 4400 "session_1000_0a1b2c3d" in
  let s' := final (cleanup_old_sessions w sweep_state) in
  (sessions sweep_state).*1 = ["session_1000_0a1b2c3d"; "session_2500_0a1b2c3d"] ∧
  last_activities sweep_state
  = [("session_1000_0a1b2c3d", 1000); ("session_2500_0a1b2c3d", 2500)] ∧
  now w - 2500 > timeout ∧
  filter (fresh (now w)) (sessions sweep_state) = [] ∧
  sessions s' = sessions sweep_state ∧
  sessions s' ≠ filter (fresh (now w)) (sessions sweep_state) ∧
  stored "session_1000_0a1b2c3d" "page_1.png" s'.
Proof.
  intros w s'.
  assert (Hf : filter (fresh (now w)) (sessions sweep_state) = [])
    by (vm_compute; reflexivity).
  assert (Hs : sessions s' = sessions sweep_state) by (vm_compute; reflexivity).
  split; [vm_compute; reflexivity|]. split; [vm_compute; reflexivity|].
  split; [vm_compute; reflexivity|]. split; [exact Hf|]. split; [exact Hs|].
  split; [rewrite Hf, Hs; vm_compute; discriminate|].
  vm_compute. by eexists.
Qed.

(** C4, as amended.  When the sweep reaches an expired session whose
    directory exists and cannot be removed, it ends there: the expired
    sessions before it in the table are gone, the failure is logged, and
    that session and every session after it are left in the table, with
    their directories, until a later sweep. *)
Theorem sweep_ends_at_failed_deletion (w : world) (s : state)
    (done rest : list (string * session)) (kv : string * session) :
  NoDup (sessions s).*1 →
  sessions s = done ++ kv :: rest →
  Forall (λ kv', ¬ blocks w (temp_pages s) (now w) kv') done →
  blocks w (temp_pages s) (now w) kv →
  let s' := final (cleanup_old_sessions w s) in
  sessions s' = filter (fresh (now w)) done ++ kv :: rest ∧
  (∀ kv', kv' ∈ kv :: rest → temp_pages s' !! kv'.1 = temp_pages s !! kv'.1) ∧
  ∃ e, rmtree_error w kv.1 = Some e ∧
       Log ERROR ("Cleanup error: " +:+ e) ∈ trace (cleanup_old_sessions w s).
Proof.
  intros Hnd Hs Hdone Hkv s'. subst s'. rewrite cleanup_old_sessions_final.
  destruct (cleanup_loop_run w (now w) done (kv :: rest) [] s)
    as (H1 & _ & H3 & e & He & Hr);
    [by rewrite <- Hs|done|done|right; by exists kv, rest|].
  rewrite <- Hs in H1, H3, Hr. split; [exact H1|]. split.
  - intros kv' Hin. rewrite H3. rewrite decide_False; [done|].
    intros ([k v] & Hk & [_ Hin']%list_elem_of_filter)%list_elem_of_fmap.
    simpl in Hk. rewrite Hs in Hnd. revert Hnd.
    rewrite fmap_app. intros (_ & Hd & _)%NoDup_app.
    apply (Hd k).
    + by apply (list_elem_of_fmap_2 fst _ (k, v)).
    + rewrite <- Hk. by apply list_elem_of_fmap_2.
  - exists e. split; [exact He|]. by apply cleanup_old_sessions_logs.
Qed.

Lemma sweep_ends_at_failed_deletion_witness :
  let w := stuck_world 5000 "session_1000_0a1b2c3d" in
  (sessions (final (cleanup_old_sessions w crowded_state))).*1
  = ["session_1000_0a1b2c3d"; "session_1001_0a1b2c3d"] ∧
  Log ERROR "Cleanup error: [Errno 13] Permission denied"
  ∈ trace (cleanup_old_sessions w crowded_state).
Proof.
  intros w.
  pose (a := ("session_1000_0a1b2c3d",
              {| sid := "session_1000_0a1b2c3d";
                 current_pdf := Some "pdfs/sample.pdf"; last_activity := 1000 |})).
  pose (b := ("session_1001_0a1b2c3d",
              {| sid := "session_1001_0a1b2c3d";
                 current_pdf := None; last_activity := 1001 |})).
  destruct (sweep_ends_at_failed_deletion w crowded_state [] [b] a)
    as (Hs & _ & e & He & Hlog).
  - apply (bool_decide_unpack _). vm_compute. reflexivity.
  - vm_compute. reflexivity.
  - constructor.
  - split; [reflexivity|]. split; [|by eexists].
    apply (bool_decide_unpack _). vm_compute. reflexivity.
  - split.
    + rewrite Hs. reflexivity.
    + injection He as <-. exact Hlog.
Defined.

(** C4 as stated fails: both sessions are older than 30 minutes, the
    directory of the first cannot be removed, and nothing stands in the way
    of removing the second (it has no directory at all); the sweep leaves
    the second in the table.  Without the failure both go. *)
Lemma failed_deletion_blocks_later_sessions :
  let w := stuck_world 5000 "session_1000_0a1b2c3d" in
  let s' := final (cleanup_old_sessions w crowded_state) in
  let b := {| sid := "session_1001_0a1b2c3d"; current_pdf := None;
              last_activity := 1001 |} in
  sessions crowded_state !! 1%nat = Some ("session_1001_0a1b2c3d", b) ∧
  expired (now w) b = true ∧
  rmtree_error w "session_1001_0a1b2c3d" = None ∧
  temp_pages crowded_state !! "session_1001_0a1b2c3d" = None ∧
  sessions s' !! 1%nat = Some ("session_1001_0a1b2c3d", b) ∧
  sessions (final (cleanup_old_sessions (sample_world 5000) crowded_state)) = [].
Proof. vm_compute. repeat split; reflexivity. Qed.

(** * The size of a rendered page *)

Section Thumbnail.

Local Open Scope Q_scope.

Lemma inject_Z_pos_neq0 (b : Z) : (0 < b)%Z → ¬ inject_Z b == 0.
Proof.
  intros Hb Heq. assert (H : inject_Z 0 < inject_Z b) by (by rewrite <- Zlt_Qlt).
  rewrite Heq in H. by apply Qlt_irrefl in H.
Qed.

(** The floor and the ceiling of a quotient of integers. *)
Lemma Qfloor_quotient (number : Q) (a b : Z) :
  (0 < b)%Z → number == inject_Z a / inject_Z b →
  (b * Qfloor number <= a < b * Qfloor number + b)%Z.
Proof.
  intros Hb Hn. rewrite (Qfloor_comp _ _ Hn), <- Zdiv_Qdiv.
  pose proof (Z.mul_div_le a b Hb). pose proof (Z.mul_succ_div_gt a b Hb). lia.
Qed.

Lemma Qceiling_quotient (number : Q) (a b : Z) :
  (0 < b)%Z → number == inject_Z a / inject_Z b →
  (a <= b * Qceiling number < a + b)%Z.
Proof.
  intros Hb Hn. unfold Qceiling.
  assert (Hopp : - number == inject_Z (- a) / inject_Z b).
  { rewrite Hn, inject_Z_opp. field. by apply inject_Z_pos_neq0. }
  pose proof (Qfloor_quotient _ _ _ Hb Hopp). lia.
Qed.

Lemma round_aspect_near (number : Q) (key : Z → Q) (a b : Z) :
  (0 < a)%Z → (0 < b)%Z → number == inject_Z a / inject_Z b →
  (1 <= round_aspect number key ∧ Z.abs (round_aspect number key * b - a) < b)%Z.
Proof.
  intros Ha Hb Hn. unfold round_aspect.
  pose proof (Qfloor_quotient _ _ _ Hb Hn) as Hlo.
  pose proof (Qceiling_quotient _ _ _ Hb Hn) as Hhi.
  destruct (Qle_bool _ _); nia.
Qed.

Lemma aspect_le_box (iw ih box : Z) :
  (0 < ih)%Z → (0 < box)%Z →
  inject_Z iw / inject_Z ih <= inject_Z box / inject_Z box ↔ (iw <= ih)%Z.
Proof.
  intros Hh Hb.
  assert (H1 : inject_Z box / inject_Z box == 1)
    by (field; by apply inject_Z_pos_neq0).
  assert (Hh' : 0 < inject_Z ih) by (by rewrite <- (Zlt_Qlt 0)).
  rewrite H1, Zle_Qle. split; intros H.
  - assert (Hw : inject_Z iw == inject_Z iw / inject_Z ih * inject_Z ih)
      by (field; by apply inject_Z_pos_neq0).
    pose proof (Qmult_le_compat_r _ _ (inject_Z ih) H (Qlt_le_weak _ _ Hh')) as Hm.
    by rewrite <- Hw, Qmult_1_l in Hm.
  - apply Qle_shift_div_r; [exact Hh'|]. by rewrite Qmult_1_l.
Qed.

End Thumbnail.

Lemma thumbnail_bounds (iw ih box : Z) :
  0 < iw → 0 < ih → 0 < box →
  let out := thumbnail (iw, ih) (box, box) in
  1 ≤ out.1 ≤ box ∧ 1 ≤ out.2 ≤ box ∧
  out.1 ≤ iw ∧ out.2 ≤ ih ∧
  aspect_kept (iw, ih) out.
Proof.
  intros Hw Hh Hb. unfold thumbnail, aspect_kept.
  destruct ((iw <=? box) && (ih <=? box)) eqn:Hfit; cbn [fst snd]; [lia|].
  assert (Hw0 := inject_Z_pos_neq0 iw Hw). assert (Hh0 := inject_Z_pos_neq0 ih Hh).
  assert (Hbig : box < iw ∨ box < ih) by lia.
  destruct (Qle_bool _ _) eqn:Hle; cbn [fst snd].
  - apply Qle_bool_iff, aspect_le_box in Hle; [|done..].
    destruct (round_aspect_near (inject_Z box * (inject_Z iw / inject_Z ih))
                (λ n, Qabs (inject_Z iw / inject_Z ih - inject_Z n / inject_Z box))
                (box * iw) ih) as [H1 H2]; [lia|done| |].
    { rewrite inject_Z_mult. by field. }
    set (r := round_aspect _ _) in *. nia.
  - assert (Hgt : ih < iw).
    { destruct (Z_lt_le_dec ih iw) as [?|Hle']; [done|].
      apply (aspect_le_box iw ih box), Qle_bool_iff in Hle'; [congruence|done..]. }
    destruct (round_aspect_near (inject_Z box / (inject_Z iw / inject_Z ih))
                (λ n, if n =? 0 then 0%Q
                      else Qabs (inject_Z iw / inject_Z ih - inject_Z box / inject_Z n))
                (box * ih) iw) as [H1 H2]; [lia|done| |].
    { rewrite inject_Z_mult. by field. }
    set (r := round_aspect _ _) in *. nia.
Qed.

(** C9. A page that [render_page] returns was rasterised by PyMuPDF at zoom
    2.0 when the quality is "high" and at zoom 1.5 for any other quality;
    its width and height are at most 1024 in the first case and 768 in the
    second, at most those of the rasterised page (never upscaled), at least
    one pixel, and in the ratio of the rasterised page up to the rounding of
    one side to a whole pixel.  The size is the one Pillow's
    [Image.thumbnail] computes, for a rasterised page with positive sides. *)
Theorem render_page_quality_policy (w : world) (doc : Document) (n : Z)
    (quality : string) (s : state) (page : page_data) :
  result (render_page w doc n quality s) = inr page →
  ∃ pg pix zoom box,
    trace (render_page w doc n quality s)
    = [LoadPage doc (n - 1); GetPixmap pg zoom] ∧
    get_pixmap w pg zoom = inr pix ∧
    (quality = "high" → zoom = 2%Q ∧ box = 1024) ∧
    (quality ≠ "high" → zoom = (3 # 2)%Q ∧ box = 768) ∧
    (0 < pix_width pix → 0 < pix_height pix →
     1 ≤ width page ≤ box ∧ 1 ≤ height page ≤ box ∧
     width page ≤ pix_width pix ∧ height page ≤ pix_height pix ∧
     aspect_kept (pix_width pix, pix_height pix) (width page, height page)).
Proof.
  rewrite render_page_run. unfold result, trace.
  destruct (load_page w doc (n - 1)) as [e|pg]; [done|].
  destruct (get_pixmap w pg (zoom_of quality)) as [e|pix] eqn:Hpix; [done|].
  simpl. intros [= <-].
  exists pg, pix, (zoom_of quality), (target_size_of quality).
  split; [done|]. split; [done|].
  unfold zoom_of, target_size_of, is_high.
  destruct (String.eqb_spec quality "high") as [->|Hne].
  - split; [done|]. split; [done|]. intros Hw Hh.
    by apply thumbnail_bounds.
  - split; [done|]. split; [done|]. intros Hw Hh.
    assert (Hbox : target_size_of quality = 768).
    { unfold target_size_of, is_high. by destruct (String.eqb_spec quality "high"). }
    pose proof (thumbnail_bounds (pix_width pix) (pix_height pix) 768 Hw Hh) as H.
    unfold rendered, aspect_kept in *. simpl in *. rewrite Hbox. apply H. lia.
Qed.

Lemma render_page_quality_policy_witness :
  let page := {| page_num := 1; width := 724; height := 1024; image_data := "PNG";
                 image_base64 := "UE5H"; timestamp := 1002 |} in
  result (render_page (sample_world 1002) sample_doc 1 "high" initial_state) = inr page ∧
  ∃ pg pix zoom box,
    trace (render_page (sample_world 1002) sample_doc 1 "high" initial_state)
    = [LoadPage sample_doc 0; GetPixmap pg zoom] ∧
    get_pixmap (sample_world 1002) pg zoom = inr pix ∧
    ("high" = "high" → zoom = 2%Q ∧ box = 1024) ∧
    ("high" ≠ "high" → zoom = (3 # 2)%Q ∧ box = 768) ∧
    (0 < pix_width pix → 0 < pix_height pix →
     1 ≤ width page ≤ box ∧ 1 ≤ height page ≤ box ∧
     width page ≤ pix_width pix ∧ height page ≤ pix_height pix ∧
     aspect_kept (pix_width pix, pix_height pix) (width page, height page)).
Proof.
  intros page.
  assert (H : result (render_page (sample_world 1002) sample_doc 1 "high" initial_state)
              = inr page) by (vm_compute; reflexivity).
  split; [exact H|].
  exact (render_page_quality_policy (sample_world 1002) sample_doc 1 "high"
           initial_state page H).
Defined.

(** Sizes Pillow gives: an A4 page at zoom 2.0 and at zoom 1.5, a small
    image left alone, and a very thin one kept one pixel wide. *)
Example thumbnail_examples :
  thumbnail (1190, 1684) (1024, 1024) = (724, 1024) ∧
  thumbnail (893, 1263) (768, 768) = (543, 768) ∧
  thumbnail (300, 200) (768, 768) = (300, 200) ∧
  thumbnail (3000, 1001) (768, 768) = (768, 256) ∧
  thumbnail (1, 3000) (768, 768) = (1, 768).
Proof. vm_compute. repeat split; reflexivity. Qed.

(** * One record per session id *)

Lemma dict_set_keys {V} (k : string) (v : V) d :
  NoDup d.*1 → NoDup (dict_set k v d).*1.
Proof.
  induction d as [|[k' v'] d IH]; simpl.
  { intros _. apply NoDup_singleton. }
  intros [Hk Hnd]%NoDup_cons. destruct (decide (k' = k)) as [->|Hne]; simpl.
  - by apply NoDup_cons.
  - apply NoDup_cons. split; [|by apply IH].
    intros ([k0 v0] & Hk0 & [[= -> ->]|Hin]%elem_of_dict_set)%list_elem_of_fmap;
      simpl in *; [done|].
    subst k0. apply Hk. by apply (list_elem_of_fmap_2 fst _ (k', v0)).
Qed.

Lemma dict_remove_keys {V} (k : string) (d : list (string * V)) :
  NoDup d.*1 → NoDup (dict_remove k d).*1.
Proof.
  induction d as [|[k' v'] d IH]; [done|]. unfold dict_remove in *.
  rewrite fmap_cons. intros [Hk Hnd]%NoDup_cons.
  destruct (decide (k' ≠ k)) as [Hne|Heq].
  - rewrite filter_cons_True by done. rewrite fmap_cons. apply NoDup_cons.
    split; [|by apply IH].
    intros ([k0 v0] & Hk0 & [_ Hin]%list_elem_of_filter)%list_elem_of_fmap.
    simpl in *. subst k0. apply Hk. by apply (list_elem_of_fmap_2 fst _ (k', v0)).
  - rewrite filter_cons_False by done. by apply IH.
Qed.

Lemma served_keys s0 s : served s0 s → (sessions s).*1 = (sessions s0).*1.
Proof.
  intros [_ H]. induction H as [|kv0 kv l0 l (Hk & _) _ IH]; [done|].
  rewrite !fmap_cons. by rewrite IH, Hk.
Qed.

(** In every state the server can reach, the session table has one record
    per session id, as a Python dict does. *)
Lemma reachable_sessions_NoDup s : reachable s → NoDup (sessions s).*1.
Proof.
  induction 1 as [|s w ev _ IH]; [constructor|].
  assert (Hserved : ev ≠ Connect → ev ≠ Cleanup →
                    NoDup (sessions (final (handle w ev s))).*1).
  { intros Hc Hl. by rewrite (served_keys s _ (handle_served w ev s Hc Hl)). }
  destruct ev; try (by apply Hserved).
  - simpl. by apply dict_set_keys.
  - simpl. apply (cleanup_old_sessions_preserves w (λ s, NoDup (sessions s).*1));
      [done| |done].
    intros s1 k Hs1. simpl. by apply dict_remove_keys.
Qed.

(** * No handler raises, and each event is answered once *)

Lemma silent_emitted t : Forall silent t → emitted t = [].
Proof.
  induction 1 as [|e t He _ IH]; [done|]. destruct e; try done.
Qed.

Lemma quiet_bind {A B} (m : M A) (f : A → M B) :
  quiet m → (∀ a, quiet (f a)) → quiet (bind m f).
Proof.
  intros Hm Hf s. specialize (Hm s). unfold bind, trace in *.
  destruct (m s) as [[[e|a] s1] t1]; simpl in *; [done|].
  specialize (Hf a s1). destruct (f a s1) as [[r s2] t2]; simpl in *.
  by rewrite emitted_app, Hm, Hf.
Qed.

Lemma replies_bind {A B} name (m : M A) (f : A → M B) :
  quiet m → (∀ a, replies name (f a)) → replies name (bind m f).
Proof.
  intros Hm Hf s. specialize (Hm s). unfold bind, trace, result in *.
  destruct (m s) as [[[e|a] s1] t1]; simpl in *; [done|].
  specialize (Hf a s1). destruct (f a s1) as [[r s2] t2]; simpl in *.
  rewrite emitted_app, Hm. exact Hf.
Qed.

Lemma replies_emit_log name payload msg :
  replies name (bind (emit name payload) (λ _, logger_info msg)).
Proof. intros s. simpl. by eexists. Qed.

Lemma replies_emit name payload : replies name (emit name payload).
Proof. intros s. simpl. by eexists. Qed.

(** A body that replies, with a handler that logs and emits the error:
    one response whatever happens, and no exception. *)
Lemma try_replies name (body : M unit) (msg : exn → string) (err : exn → json) s :
  replies name body →
  result (try_except body (λ e, bind (logger_error (msg e))
                                  (λ _, emit name (err e))) s) = inr tt ∧
  ∃ payload,
    emitted (trace (try_except body (λ e, bind (logger_error (msg e))
                                            (λ _, emit name (err e))) s))
    = [(name, payload)].
Proof.
  intros Hb. specialize (Hb s). unfold try_except, result, trace in *.
  destruct (body s) as [[[e|[]] s1] t1]; simpl in *.
  - split; [done|]. rewrite emitted_app, Hb. by eexists.
  - done.
Qed.

Section Quiet.

Context (w : world).

Lemma load_pdf_quiet pdf_path : quiet (load_pdf w pdf_path).
Proof.
  intros s. apply silent_emitted.
  by destruct (load_pdf_spec w silent (λ _ H, H) pdf_path s s (served_refl s)).
Qed.

Lemma render_page_quiet doc n quality : quiet (render_page w doc n quality).
Proof.
  intros s. apply silent_emitted.
  by destruct (render_page_spec w silent (λ _ H, H) doc n quality (λ _, True) s I).
Qed.

Lemma save_page_image_quiet image_data session_id n :
  quiet (save_page_image w image_data session_id n).
Proof.
  intros s. apply silent_emitted.
  by destruct (save_page_image_spec w silent (λ _ H, H) image_data session_id n
                 s s (served_refl s)).
Qed.

Lemma preload_loop_quiet info session_data quality page_nums : ∀ pages,
  quiet (preload_loop w info session_data quality page_nums pages).
Proof.
  induction page_nums as [|n rest IH]; intros pages; simpl; [done|].
  destruct ((1 <=? n) && (n <=? total_pages info)); [|apply IH].
  apply quiet_bind; [apply render_page_quiet|]. intros page.
  apply quiet_bind; [apply save_page_image_quiet|]. intros image_url. apply IH.
Qed.

End Quiet.

Section Answers.

Context (w : world).

Lemma handle_load_pdf_answers data s :
  result (handle_load_pdf w data s) = inr tt ∧
  ∃ payload, emitted (trace (handle_load_pdf w data s)) = [("pdfLoaded", payload)].
Proof.
  unfold handle_load_pdf. apply try_replies.
  destruct (negb (path_exists w (pdf_path_of (pdfId data)))); [apply replies_emit|].
  apply replies_bind; [apply load_pdf_quiet|]. intros info.
  apply replies_bind; [done|]. intros s'.
  apply replies_bind; [|intros _; apply replies_emit_log].
  by destruct (find_session (sessions s')) as [[i kv]|].
Qed.

Lemma handle_request_page_answers data s :
  result (handle_request_page w data s) = inr tt ∧
  ∃ payload, emitted (trace (handle_request_page w data s)) = [("pageData", payload)].
Proof.
  unfold handle_request_page. apply try_replies.
  apply replies_bind; [done|]. intros s'.
  destruct (bound_session s') as [[session_data pdf_path]|]; [|apply replies_emit].
  apply replies_bind; [apply load_pdf_quiet|]. intros info.
  apply replies_bind; [apply render_page_quiet|]. intros page.
  apply replies_bind; [apply save_page_image_quiet|]. intros image_url.
  apply replies_emit_log.
Qed.

Lemma handle_preload_pages_answers data s :
  result (handle_preload_pages w data s) = inr tt ∧
  ∃ payload,
    emitted (trace (handle_preload_pages w data s)) = [("pagesPreloaded", payload)].
Proof.
  unfold handle_preload_pages. apply try_replies.
  apply replies_bind; [done|]. intros s'.
  destruct (bound_session s') as [[session_data pdf_path]|]; [|apply replies_emit].
  apply replies_bind; [apply load_pdf_quiet|]. intros info.
  apply replies_bind; [apply preload_loop_quiet|]. intros pages.
  apply replies_emit_log.
Qed.

Lemma cleanup_loop_quiet current_time items :
  quiet (cleanup_loop w current_time items).
Proof.
  induction items as [|[session_id session_data] rest IH]; simpl; [done|].
  apply quiet_bind; [|intros _; exact IH].
  destruct (timeout <? current_time - last_activity session_data); [|done].
  apply quiet_bind; [done|]. intros s'.
  apply quiet_bind.
  - destruct (bool_decide _); [|done].
    apply quiet_bind; [|done]. by apply quiet_bind.
  - intros _. unfold del_session. apply quiet_bind; [done|]. intros s''.
    by destruct (dict_has _ _).
Qed.

Lemma cleanup_old_sessions_answers s :
  result (cleanup_old_sessions w s) = inr tt ∧
  emitted (trace (cleanup_old_sessions w s)) = [].
Proof.
  pose proof (quiet_bind get (λ s, cleanup_loop w (now w) (sessions s))
                ltac:(done) (λ s', cleanup_loop_quiet (now w) (sessions s')) s) as Hq.
  unfold cleanup_old_sessions, try_except, result, trace in *.
  destruct (bind _ _ s) as [[[e|[]] s1] t1]; simpl in *; [|done].
  split; [done|]. by rewrite emitted_app, Hq.
Qed.

Lemma get_pdf_info_answers pdf_id s :
  (∃ body status, result (get_pdf_info w pdf_id s) = inr (body, status)) ∧
  emitted (trace (get_pdf_info w pdf_id s)) = [].
Proof.
  assert (Hq : quiet (if negb (path_exists w (pdf_path_of pdf_id))
               then ret (JObj [("success", JBool false); ("error", JStr "PDF not found")], 404)
               else bind (load_pdf w (pdf_path_of pdf_id)) (λ info,
                      ret (JObj [("success", JBool true); ("id", JStr pdf_id);
                                 ("total_pages", JInt (total_pages info));
                                 ("metadata", metadata_json (metadata info))], 200)))).
  { destruct (negb _); [done|]. apply quiet_bind; [apply load_pdf_quiet|done]. }
  specialize (Hq s).
  unfold get_pdf_info, try_except, result, trace in *.
  destruct (if negb _ then _ else _) as [[[e|[body status]] s1] t1]; simpl in *.
  - split; [by eexists _, _|]. by rewrite emitted_app, Hq.
  - split; [by eexists _, _|done].
Qed.

End Answers.

(** X1. No handler lets an exception out: whatever the files, PyMuPDF and
    the disk do, every socket handler, the sweep and the info route return. *)
Theorem handlers_never_raise (w : world) (ev : event) (s : state) :
  result (handle w ev s) = inr tt.
Proof.
  destruct ev; simpl; try done.
  - apply handle_load_pdf_answers.
  - apply handle_request_page_answers.
  - apply handle_preload_pages_answers.
  - apply cleanup_old_sessions_answers.
  - destruct (get_pdf_info_answers w pdf_id s) as [(body & status & Hr) _].
    unfold bind, result in *.
    by destruct (get_pdf_info w pdf_id s) as [[[e|a] s1] t1].
Qed.

(** X2. Each socket event is answered by exactly one event of its own kind:
    [connected], [pdfLoaded], [pageData], [pagesPreloaded] or [pong], also
    when the handler fails inside; [disconnect], the sweep and the info
    route emit nothing on the socket. *)
Theorem one_response_per_event (w : world) (ev : event) (s : state) :
  match response_of ev with
  | Some name => ∃ payload, emitted (trace (handle w ev s)) = [(name, payload)]
  | None => emitted (trace (handle w ev s)) = []
  end.
Proof.
  destruct ev; simpl.
  - by eexists.
  - done.
  - apply handle_load_pdf_answers.
  - apply handle_request_page_answers.
  - apply handle_preload_pages_answers.
  - by eexists.
  - apply cleanup_old_sessions_answers.
  - destruct (get_pdf_info_answers w pdf_id s) as [_ Hq].
    unfold bind, trace in *.
    destruct (get_pdf_info w pdf_id s) as [[[e|a] s1] t1]; simpl in *; [done|].
    by rewrite app_nil_r.
Qed.

(** * The life of sessions and of cache entries *)

Lemma dict_set_fst {V} (k : string) (v : V) d :
  (dict_set k v d).*1 = if dict_has k d then d.*1 else d.*1 ++ [k].
Proof.
  induction d as [|[k' v'] d IH]; [done|]. simpl.
  unfold dict_has in *. rewrite fmap_cons. simpl.
  destruct (decide (k' = k)) as [->|Hne].
  - rewrite bool_decide_eq_true_2 by (by left). done.
  - rewrite fmap_cons, IH. simpl.
    destruct (bool_decide (k ∈ d.*1)) eqn:Hin.
    + apply bool_decide_eq_true in Hin.
      rewrite bool_decide_eq_true_2 by (by right). done.
    + apply bool_decide_eq_false in Hin.
      rewrite bool_decide_eq_false_2; [done|].
      intros [?|?]%elem_of_cons; [congruence|done].
Qed.

(** X3. Only [connect] adds a session and only the sweep removes one:
    [connect] leaves the ids as they are when the new id is already there
    and puts it last otherwise; the sweep leaves records of the table;
    every other event, [disconnect] too, leaves the ids as they are. *)
Theorem session_ids_change_only_at_connect_and_sweep (w : world) (ev : event) (s : state) :
  let s' := final (handle w ev s) in
  match ev with
  | Connect =>
      let session_id := "session_" +:+ pretty (now w) +:+ "_" +:+ urandom_hex w in
      (sessions s').*1
      = if dict_has session_id (sessions s) then (sessions s).*1
        else (sessions s).*1 ++ [session_id]
  | Cleanup => ∀ kv, kv ∈ sessions s' → kv ∈ sessions s
  | _ => (sessions s').*1 = (sessions s).*1
  end.
Proof.
  destruct ev; simpl; try done.
  - apply dict_set_fst.
  - apply (served_keys s), (handle_served w (LoadPDF data)); done.
  - apply (served_keys s), (handle_served w (RequestPage data)); done.
  - apply (served_keys s), (handle_served w (PreloadPages data)); done.
  - apply cleanup_old_sessions_shrinks.
  - apply (served_keys s), (handle_served w (GetPdfInfo pdf_id)); done.
Qed.

Lemma handle_cache_grows w ev s : pdf_cache s ⊆ pdf_cache (final (handle w ev s)).
Proof.
  assert (Hserved : ev ≠ Connect → ev ≠ Cleanup →
                    pdf_cache s ⊆ pdf_cache (final (handle w ev s))).
  { intros Hc Hl. by destruct (handle_served w ev s Hc Hl). }
  destruct ev; try (by apply Hserved); [done|].
  destruct (cleanup_old_sessions_shrinks w s) as [_ Hc]. simpl. by rewrite Hc.
Qed.

(** X4. The cache only grows: after any events, in any worlds, every path
    cached before is still cached with the same entry, whatever has become
    of the file. *)
Theorem cache_entries_are_kept (evs : list (world * event)) (s : state) :
  pdf_cache s ⊆ pdf_cache (run evs s).1.
Proof.
  revert s. induction evs as [|[w ev] evs IH]; intros s; [done|].
  simpl. etrans; [apply (handle_cache_grows w ev)|apply IH].
Qed.

Lemma bound_session_found s session_data pdf_path :
  bound_session s = Some (session_data, pdf_path) →
  ∃ i k, find_session (sessions s) = Some (i, (k, session_data)).
Proof.
  unfold bound_session.
  destruct (find_session (sessions s)) as [[i [k sd]]|]; [|done].
  destruct (current_pdf sd) as [p|]; [|done].
  destruct (truthy (Some p)); [|done]. intros [= <- _]. by eexists _, _.
Qed.

Section Keeps.

Context (w : world) (P : state → Prop).
Context (Hcache : ∀ s p doc, P s → pdf_cache s !! p = None →
                   P (set_pdf_cache (<[p := info_of p doc]> (pdf_cache s)) s)).
Context (Hsaved : ∀ s image_data n i k session_data,
                   P s → find_session (sessions s) = Some (i, (k, session_data)) →
                   P (saved image_data (sid session_data) n s)).
Context (Hbind : ∀ s i kv p,
                  P s → find_session (sessions s) = Some (i, kv) →
                  is_Some (pdf_cache s !! p) →
                  P (set_sessions
                       (alter (prod_map id (with_current_pdf p)) i (sessions s)) s)).

Lemma load_pdf_keeps pdf_path ss :
  triple (λ _, True) (λ s, P s ∧ sessions s = ss) (load_pdf w pdf_path)
    (λ info s, (P s ∧ sessions s = ss) ∧ pdf_cache s !! pdf_path = Some info)
    (λ _ s, P s ∧ sessions s = ss).
Proof.
  intros s [Hs Hss]. split; [by apply Forall_forall|].
  destruct (pdf_cache s !! pdf_path) as [info|] eqn:Hc.
  - by rewrite (load_pdf_hit _ _ _ _ Hc).
  - rewrite (load_pdf_miss _ _ _ Hc). unfold result, final.
    destruct (fitz_open w pdf_path) as [e|doc]; simpl; [done|].
    split; [split; [by apply Hcache|done]|]. apply lookup_insert_eq.
Qed.

Lemma render_page_keeps doc n quality (R : state → Prop) :
  triple (λ _, True) R (render_page w doc n quality) (λ _ s, R s) (λ _ s, R s).
Proof.
  intros s Hs. split; [by apply Forall_forall|].
  pose proof (render_page_final w doc n quality s) as Hf.
  destruct (result _); by rewrite Hf.
Qed.

Lemma save_page_image_keeps image_data n i k session_data ss :
  find_session ss = Some (i, (k, session_data)) →
  triple (λ _, True) (λ s, P s ∧ sessions s = ss)
    (save_page_image w image_data (sid session_data) n)
    (λ _ s, P s ∧ sessions s = ss) (λ _ s, P s ∧ sessions s = ss).
Proof.
  intros Hfind s [Hs Hss]. split; [by apply Forall_forall|].
  rewrite save_page_image_run. unfold result, final.
  destruct (write_error w (sid session_data) (page_filename n)); simpl; [done|].
  split; [|done]. eapply Hsaved; [done|]. by rewrite Hss.
Qed.

Lemma preload_loop_keeps info i k session_data ss quality page_nums :
  find_session ss = Some (i, (k, session_data)) → ∀ pages,
  triple (λ _, True) (λ s, P s ∧ sessions s = ss)
    (preload_loop w info session_data quality page_nums pages)
    (λ _ s, P s ∧ sessions s = ss) (λ _ s, P s ∧ sessions s = ss).
Proof.
  intros Hfind.
  induction page_nums as [|n rest IH]; intros pages; simpl.
  { by apply triple_ret. }
  destruct ((1 <=? n) && (n <=? total_pages info)); [|apply IH].
  apply triple_bind with (Q := λ _ s, P s ∧ sessions s = ss);
    [apply render_page_keeps|].
  intros page. apply triple_bind with (Q := λ _ s, P s ∧ sessions s = ss);
    [by eapply save_page_image_keeps|]. intros image_url. apply IH.
Qed.

(** A property of the state kept by a new cache entry, by a page written
    for the session the handlers find and by the binding of that session to
    a cached document is kept by every handler that serves a connected
    client, and by the info route. *)
Lemma activity_keeps ev s :
  ev ≠ Connect → ev ≠ Cleanup → P s → P (final (handle w ev s)).
Proof.
  intros Hc Hl Hs.
  assert (Hfin : ∀ (m : M unit),
    triple (λ _, True) (λ s', s' = s) m (λ _ s, P s) (λ _ s, P s) → P (final (m s))).
  { intros m Hm. destruct (Hm s eq_refl) as [_ Hr]. by destruct (result (m s)). }
  assert (Hdrop : ∀ ss (Q : Prop) s1, (P s1 ∧ sessions s1 = ss) ∧ Q → P s1) by tauto.
  destruct ev; simpl; try done.
  - apply Hfin. unfold handle_load_pdf.
    apply triple_try with (E' := λ _ s, P s).
    + destruct (negb _); [apply triple_tell; by intros ? ->|].
      apply triple_bind with
        (Q := λ info s1, (P s1 ∧ sessions s1 = sessions s) ∧
                         pdf_cache s1 !! pdf_path_of (pdfId data) = Some info).
      { eapply triple_conseq; [apply load_pdf_keeps|..].
        - by intros ? ->.
        - done.
        - by intros ? ? [? _]. }
      intros info.
      apply triple_bind with
        (Q := λ s' s1, s' = s1 ∧ P s1 ∧
                       pdf_cache s1 !! pdf_path_of (pdfId data) = Some info).
      { apply triple_get. intros s1 [[? _] ?]. done. }
      intros s'. apply triple_bind with (Q := λ _ s1, P s1).
      * destruct (find_session (sessions s')) as [[i kv]|] eqn:Hfind.
        -- apply triple_modify. intros s1 (-> & Hs1 & Hin).
           apply (Hbind _ _ kv); [done..|]. by rewrite Hin.
        -- apply triple_ret. by intros s1 (_ & Hs1 & _).
      * intros _. apply triple_bind with (Q := λ _ s, P s); [by apply triple_tell|].
        intros _. by apply triple_tell.
    + intros e. apply triple_bind with (Q := λ _ s, P s); [by apply triple_tell|].
      intros _. by apply triple_tell.
  - apply Hfin. unfold handle_request_page.
    apply triple_try with (E' := λ _ s, P s).
    + apply triple_bind with (Q := λ s' s1, s' = s1 ∧ P s1).
      { apply triple_get. by intros ? ->. }
      intros s'. destruct (bound_session s') as [[session_data pdf_path]|] eqn:Hb;
        [|apply triple_tell; by intros ? [_ ?]].
      destruct (bound_session_found _ _ _ Hb) as (i & k & Hfind).
      apply triple_bind with (Q := λ _ s1, P s1 ∧ sessions s1 = sessions s').
      { eapply triple_conseq; [apply load_pdf_keeps|..].
        - by intros ? [-> ?].
        - by intros ? ? [? _].
        - by intros ? ? [? _]. }
      intros info.
      apply triple_bind with (Q := λ _ s1, P s1 ∧ sessions s1 = sessions s').
      { eapply triple_conseq; [apply render_page_keeps|..].
        - intros ? H. exact H.
        - by intros ? ? [? ?].
        - by intros ? ? [? _]. }
      intros page.
      apply triple_bind with (Q := λ _ s1, P s1).
      { eapply triple_conseq; [by eapply save_page_image_keeps|..].
        - intros ? H. exact H.
        - by intros ? ? [? _].
        - by intros ? ? [? _]. }
      intros image_url. apply triple_bind with (Q := λ _ s, P s);
        [by apply triple_tell|]. intros _. by apply triple_tell.
    + intros e. apply triple_bind with (Q := λ _ s, P s); [by apply triple_tell|].
      intros _. by apply triple_tell.
  - apply Hfin. unfold handle_preload_pages.
    apply triple_try with (E' := λ _ s, P s).
    + apply triple_bind with (Q := λ s' s1, s' = s1 ∧ P s1).
      { apply triple_get. by intros ? ->. }
      intros s'. destruct (bound_session s') as [[session_data pdf_path]|] eqn:Hb;
        [|apply triple_tell; by intros ? [_ ?]].
      destruct (bound_session_found _ _ _ Hb) as (i & k & Hfind).
      apply triple_bind with (Q := λ _ s1, P s1 ∧ sessions s1 = sessions s').
      { eapply triple_conseq; [apply load_pdf_keeps|..].
        - by intros ? [-> ?].
        - by intros ? ? [? _].
        - by intros ? ? [? _]. }
      intros info.
      apply triple_bind with (Q := λ _ s1, P s1).
      { eapply triple_conseq; [by eapply preload_loop_keeps|..].
        - intros ? H. exact H.
        - by intros ? ? [? _].
        - by intros ? ? [? _]. }
      intros pages. apply triple_bind with (Q := λ _ s, P s);
        [by apply triple_tell|]. intros _. by apply triple_tell.
    + intros e. apply triple_bind with (Q := λ _ s, P s); [by apply triple_tell|].
      intros _. by apply triple_tell.
  - apply Hfin. apply triple_bind with (Q := λ _ s, P s); [|intros; by apply triple_ret].
    unfold get_pdf_info. apply triple_try with (E' := λ _ s, P s).
    + destruct (negb _); [apply triple_ret; by intros ? ->|].
      apply triple_bind with (Q := λ _ s1, P s1).
      { eapply triple_conseq; [apply (load_pdf_keeps _ (sessions s))|..].
        - by intros ? ->.
        - by intros ? ? [[? _] _].
        - by intros ? ? [? _]. }
      intros info. by apply triple_ret.
    + intros e. by apply triple_ret.
Qed.

End Keeps.

(** X5. In every state the server can reach, a cache entry is the one
    [load_pdf] made for its key: it is stored under its own path, its page
    count is that of its document, the [pages] field of its metadata is the
    page count, and title and author are never missing from its metadata
    (they default to 'Untitled' and 'Unknown'). *)
Theorem cache_entries_are_well_formed (s : state) (p : string) (info : pdf_info) :
  reachable s → pdf_cache s !! p = Some info →
  path info = p ∧
  total_pages info = page_count (document info) ∧
  pages (metadata info) = total_pages info ∧
  title (metadata info)
  = default "Untitled" (default ∅ (doc_metadata (document info)) !! "title") ∧
  author (metadata info)
  = default "Unknown" (default ∅ (doc_metadata (document info)) !! "author").
Proof.
  intros Hr Hp.
  assert (Hmade : cache_entries_made s).
  { clear Hp. induction Hr as [|s w ev _ IH].
    - intros p' info' H'. simpl in H'. by rewrite lookup_empty in H'.
    - assert (Hact : ev ≠ Connect → ev ≠ Cleanup →
                     cache_entries_made (final (handle w ev s))).
      { intros Hc Hl. apply (activity_keeps w cache_entries_made); try done.
        intros s1 p1 doc Hs1 Hnone p' info'. simpl.
        destruct (decide (p1 = p')) as [->|Hne].
        - rewrite lookup_insert_eq. by intros [= <-].
        - rewrite lookup_insert_ne by done. apply Hs1. }
      destruct ev; try (by apply Hact); [done|].
      destruct (cleanup_old_sessions_shrinks w s) as [_ Hc].
      intros p' info'. simpl. rewrite Hc. apply IH. }
  rewrite (Hmade p info Hp). done.
Qed.

Lemma cache_entries_are_well_formed_witness :
  let info := info_of "pdfs/sample.pdf" sample_doc in
  reachable viewing_state ∧
  pdf_cache viewing_state !! "pdfs/sample.pdf" = Some info ∧
  pages (metadata info) = 3 ∧ author (metadata info) = "Unknown".
Proof.
  intros info.
  assert (Hr : reachable viewing_state).
  { exact (reachable_step _ (sample_world 1001) sample_load
             (reachable_step _ (sample_world 1000) Connect reachable_initial)). }
  assert (Hc : pdf_cache viewing_state !! "pdfs/sample.pdf" = Some info)
    by (vm_compute; reflexivity).
  destruct (cache_entries_are_well_formed viewing_state "pdfs/sample.pdf" info Hr Hc)
    as (_ & Ht & Hp & _ & Ha).
  split; [exact Hr|]. split; [exact Hc|]. split.
  - rewrite Hp, Ht. reflexivity.
  - rewrite Ha. reflexivity.
Defined.

(** * Stored pages *)

Lemma serve_page_image_run send_error session_id filename s :
  serve_page_image send_error session_id filename s
  = match temp_pages s !! session_id ≫= (λ dir, dir !! filename) with
    | Some data =>
        match send_error with
        | Some e => (inr (Text "Error serving image", 500), s,
                     [Log ERROR ("Error serving image: " +:+ e)])
        | None => (inr (SentFile data "image/png", 200), s, [])
        end
    | None => (inr (Text "File not found", 404), s, [])
    end.
Proof.
  unfold serve_page_image, try_except. rewrite bind_get.
  destruct (temp_pages s !! session_id ≫= _); [|done]. by destruct send_error.
Qed.

Lemma saved_lookup image_data session_id n s :
  temp_pages (saved image_data session_id n s) !! session_id
    ≫= (λ dir, dir !! page_filename n) = Some image_data.
Proof. simpl. rewrite lookup_insert_eq. simpl. apply lookup_insert_eq. Qed.

Lemma saved_stored image_data session_id n k f s :
  stored k f s → stored k f (saved image_data session_id n s).
Proof.
  unfold stored. simpl. intros [b Hb].
  destruct (decide (session_id = k)) as [->|Hne].
  - rewrite lookup_insert_eq. simpl.
    destruct (temp_pages s !! k) as [dir|]; [|done]. simpl in *.
    destruct (decide (page_filename n = f)) as [->|Hf].
    + rewrite lookup_insert_eq. by eexists.
    + rewrite lookup_insert_ne by done. by eexists.
  - rewrite lookup_insert_ne by done. by eexists.
Qed.



(** ** What the handlers do to a stored file *)

Lemma keeps_file_pure {A} session_id filename (m : M A) :
  (∀ s, final (m s) = s) → keeps_file session_id filename m.
Proof. intros H s. left. by rewrite H. Qed.

Lemma keeps_file_modify session_id filename (g : state → state) :
  (∀ s, temp_pages (g s) = temp_pages s) → keeps_file session_id filename (modify g).
Proof. intros H s. left. unfold file_at, modify, final; simpl. by rewrite H. Qed.

Lemma keeps_file_bind {A B} session_id filename (m : M A) (f : A → M B) :
  keeps_file session_id filename m → (∀ a, keeps_file session_id filename (f a)) →
  keeps_file session_id filename (bind m f).
Proof.
  intros Hm Hf s. specialize (Hm s). unfold bind, final, trace in *.
  destruct (m s) as [[[e|a] s1] t1]; simpl in *; [exact Hm|].
  specialize (Hf a s1). unfold final, trace in Hf.
  destruct (f a s1) as [[r s2] t2]; simpl in *.
  destruct Hf as [Hf|[Hf1 Hf2]].
  - destruct Hm as [Hm|[Hm1 Hm2]].
    + left. congruence.
    + right. split; [apply elem_of_app; by left|by rewrite Hf].
  - right. split; [apply elem_of_app; by right|done].
Qed.

Lemma keeps_file_try {A} session_id filename (body : M A) (handler : exn → M A) :
  keeps_file session_id filename body →
  (∀ e, keeps_file session_id filename (handler e)) →
  keeps_file session_id filename (try_except body handler).
Proof.
  intros Hm Hf s. specialize (Hm s). unfold try_except, final, trace in *.
  destruct (body s) as [[[e|a] s1] t1]; simpl in *; [|exact Hm].
  specialize (Hf e s1). unfold final, trace in Hf.
  destruct (handler e s1) as [[r s2] t2]; simpl in *.
  destruct Hf as [Hf|[Hf1 Hf2]].
  - destruct Hm as [Hm|[Hm1 Hm2]].
    + left. congruence.
    + right. split; [apply elem_of_app; by left|by rewrite Hf].
  - right. split; [apply elem_of_app; by right|done].
Qed.

Ltac keeps_file_step :=
  first [ apply keeps_file_pure; done
        | apply keeps_file_modify; done
        | apply keeps_file_bind; [|intros ?]
        | apply keeps_file_try; [|intros ?] ].

Section KeepsFile.

Context (w : world) (k f : string).

Lemma load_pdf_keeps_file pdf_path : keeps_file k f (load_pdf w pdf_path).
Proof.
  unfold load_pdf. apply keeps_file_try; [|intros e; repeat keeps_file_step].
  apply keeps_file_bind; [by apply keeps_file_pure|]. intros s.
  destruct (pdf_cache s !! pdf_path); repeat keeps_file_step.
Qed.

Lemma render_page_keeps_file doc n quality : keeps_file k f (render_page w doc n quality).
Proof. apply keeps_file_pure. intros s. apply render_page_final. Qed.

Lemma save_page_image_keeps_file image_data session_id n :
  keeps_file k f (save_page_image w image_data session_id n).
Proof.
  intros s. rewrite save_page_image_run.
  destruct (write_error w session_id (page_filename n)); [by left|].
  unfold final, trace, file_at; simpl.
  destruct (decide (session_id = k)) as [->|Hne].
  - rewrite lookup_insert_eq. simpl.
    destruct (decide (page_filename n = f)) as [->|Hf].
    + right. split; [by left|]. rewrite lookup_insert_eq. by eexists.
    + left. rewrite lookup_insert_ne by done.
      destruct (temp_pages s !! k); simpl; [done|apply lookup_empty].
  - left. by rewrite lookup_insert_ne.
Qed.

Lemma preload_loop_keeps_file info session_data quality page_nums : ∀ pages,
  keeps_file k f (preload_loop w info session_data quality page_nums pages).
Proof.
  induction page_nums as [|n rest IH]; intros pages; simpl.
  { by apply keeps_file_pure. }
  destruct (_ && _); [|apply IH].
  apply keeps_file_bind; [apply render_page_keeps_file|]. intros page.
  apply keeps_file_bind; [apply save_page_image_keeps_file|]. intros image_url.
  apply IH.
Qed.

Lemma handle_keeps_file ev : ev ≠ Cleanup → keeps_file k f (handle w ev).
Proof.
  intros Hl. destruct ev; simpl; try done.
  - unfold handle_connect. repeat keeps_file_step.
  - by apply keeps_file_pure.
  - unfold handle_load_pdf. apply keeps_file_try; [|intros e; repeat keeps_file_step].
    destruct (negb _); [by apply keeps_file_pure|].
    apply keeps_file_bind; [apply load_pdf_keeps_file|]. intros info.
    apply keeps_file_bind; [by apply keeps_file_pure|]. intros s.
    apply keeps_file_bind; [|intros _; repeat keeps_file_step].
    destruct (find_session (sessions s)) as [[i kv]|]; [|by apply keeps_file_pure].
    unfold bind_current_pdf. by apply keeps_file_modify.
  - unfold handle_request_page. apply keeps_file_try; [|intros e; repeat keeps_file_step].
    apply keeps_file_bind; [by apply keeps_file_pure|]. intros s.
    destruct (bound_session s) as [[session_data pdf_path]|]; [|by apply keeps_file_pure].
    apply keeps_file_bind; [apply load_pdf_keeps_file|]. intros info.
    apply keeps_file_bind; [apply render_page_keeps_file|]. intros page.
    apply keeps_file_bind; [apply save_page_image_keeps_file|]. intros image_url.
    repeat keeps_file_step.
  - unfold handle_preload_pages. apply keeps_file_try; [|intros e; repeat keeps_file_step].
    apply keeps_file_bind; [by apply keeps_file_pure|]. intros s.
    destruct (bound_session s) as [[session_data pdf_path]|]; [|by apply keeps_file_pure].
    apply keeps_file_bind; [apply load_pdf_keeps_file|]. intros info.
    apply keeps_file_bind; [apply preload_loop_keeps_file|]. intros pages.
    repeat keeps_file_step.
  - by apply keeps_file_pure.
  - apply keeps_file_bind; [|intros ?; by apply keeps_file_pure].
    unfold get_pdf_info. apply keeps_file_try; [|intros e; by apply keeps_file_pure].
    destruct (negb _); [by apply keeps_file_pure|].
    apply keeps_file_bind; [apply load_pdf_keeps_file|]. intros info.
    by apply keeps_file_pure.
Qed.

End KeepsFile.

Lemma run_keeps_file (evs : list (world * event)) (k f : string) : ∀ s,
  Forall (λ we, we.2 ≠ Cleanup) evs →
  file_at k f (run evs s).1 = file_at k f s ∨
  (WriteFile k f ∈ (run evs s).2 ∧ is_Some (file_at k f (run evs s).1)).
Proof.
  induction evs as [|[w ev] evs IH]; intros s Hevs; [by left|].
  apply Forall_cons in Hevs as [Hev Hevs]. simpl in *.
  destruct (IH (final (handle w ev s)) Hevs) as [Hr|[Hr1 Hr2]].
  - destruct (handle_keeps_file w k f ev Hev s) as [Hh|[Hh1 Hh2]].
    + left. congruence.
    + right. split; [apply elem_of_app; by left|by rewrite Hr].
  - right. split; [apply elem_of_app; by right|done].
Qed.

(** X7. A stored page stays available until a sweep.  After any events
    other than the sweep, in any worlds, a page file the route [/pages/...]
    sent before is still sent with status 200 as [image/png], and with the
    very same bytes unless some handler wrote that file of that session
    again in between; when sending the file fails the route answers 500. *)
Theorem stored_page_is_served_until_sweep (evs : list (world * event)) (s : state)
    (session_id filename : string) (data : bytes) (send_error : option exn) :
  Forall (λ we, we.2 ≠ Cleanup) evs →
  result (serve_page_image None session_id filename s)
  = inr (SentFile data "image/png", 200) →
  ∃ data',
    (data' = data ∨ WriteFile session_id filename ∈ (run evs s).2) ∧
    result (serve_page_image send_error session_id filename (run evs s).1)
    = inr (match send_error with
           | None => (SentFile data' "image/png", 200)
           | Some _ => (Text "Error serving image", 500)
           end).
Proof.
  intros Hevs Hserve.
  assert (Hs : file_at session_id filename s = Some data).
  { rewrite serve_page_image_run in Hserve. unfold file_at.
    destruct (temp_pages s !! session_id ≫= _); [|done].
    unfold result in Hserve; simpl in Hserve. congruence. }
  assert (Hat : ∃ data', (data' = data ∨ WriteFile session_id filename ∈ (run evs s).2) ∧
                         file_at session_id filename (run evs s).1 = Some data').
  { destruct (run_keeps_file evs session_id filename s Hevs) as [Hr|[Hr1 [b Hb]]].
    - exists data. split; [by left|congruence].
    - exists b. split; [by right|done]. }
  destruct Hat as (data' & Hdata & Hat). exists data'. split; [exact Hdata|].
  rewrite serve_page_image_run. unfold file_at in Hat. rewrite Hat.
  by destruct send_error.
Qed.

Lemma stored_page_is_served_until_sweep_witness :
  let s := final (handle (sample_world 1002) (request 2) viewing_state) in
  let evs := [(sample_world 2000, Connect); (sample_world 2001, sample_load);
              (sample_world 2002, request 1); (sample_world 2003, Ping)] in
  WriteFile "session_1000_0a1b2c3d" "page_2.png" ∉ (run evs s).2 ∧
  result (serve_page_image None "session_1000_0a1b2c3d" "page_2.png" (run evs s).1)
  = inr (SentFile "PNG" "image/png", 200).
Proof.
  intros s evs.
  assert (Hw : WriteFile "session_1000_0a1b2c3d" "page_2.png" ∉ (run evs s).2).
  { vm_compute. intros H. repeat (apply elem_of_cons in H as [H|H]; [discriminate H|]).
    by apply elem_of_nil in H. }
  split; [exact Hw|].
  destruct (stored_page_is_served_until_sweep evs s
              "session_1000_0a1b2c3d" "page_2.png" "PNG" None)
    as (data' & [->|Hin] & Hserve).
  - repeat constructor; discriminate.
  - vm_compute. reflexivity.
  - exact Hserve.
  - by destruct Hw.
Defined.

(** * Directories and sessions *)

Lemma alter_session_keys (g : session → session) i (l : list (string * session)) :
  (alter (prod_map id g) i l).*1 = l.*1.
Proof.
  rewrite (list_fmap_alter fst (prod_map id g) id).
  - by apply list_alter_id.
  - apply Forall_forall. by intros [k v] _.
Qed.

Lemma elem_of_alter_session (g : session → session) i (l : list (string * session)) k v :
  (k, v) ∈ alter (prod_map id g) i l → ∃ v0, (k, v0) ∈ l ∧ (v = v0 ∨ v = g v0).
Proof.
  revert i. induction l as [|[k0 v0] l IH]; intros [|i]; simpl.
  - by intros ?%elem_of_nil.
  - by intros ?%elem_of_nil.
  - intros [[= -> ->]|Hin]%elem_of_cons.
    + exists v0. split; [by left|by right].
    + exists v. split; [by right|by left].
  - intros [[= -> ->]|Hin]%elem_of_cons.
    + exists v0. split; [by left|by left].
    + destruct (IH _ Hin) as (v1 & Hin1 & Hv). exists v1. split; [by right|done].
Qed.

Lemma find_session_elem ss i kv : find_session ss = Some (i, kv) → kv ∈ ss.
Proof.
  unfold find_session. intros (Hi & _)%list_find_Some.
  by eapply list_elem_of_lookup_2.
Qed.

(** What a sweep leaves: records of the table, and the directories of the
    sessions left. *)
Lemma sweep_outcome w s :
  NoDup (sessions s).*1 →
  let s' := final (cleanup_old_sessions w s) in
  (∀ kv, kv ∈ sessions s' → kv ∈ sessions s) ∧
  (∀ k, k ∈ (sessions s).*1 → k ∉ (sessions s').*1 → temp_pages s' !! k = None) ∧
  (∀ k, is_Some (temp_pages s' !! k) → is_Some (temp_pages s !! k)).
Proof.
  intros Hnd s'. subst s'. rewrite cleanup_old_sessions_final.
  destruct (split_at_block w (temp_pages s) (now w) (sessions s))
    as (done & tail & Hs & Hdone & Htail).
  destruct (cleanup_loop_run w (now w) done tail [] s) as (H1 & _ & H3 & _);
    [by rewrite <- Hs|done..|].
  rewrite <- Hs in H1, H3. simpl in H1. rewrite H1. split; [|split].
  - intros kv [[_ Hin]%list_elem_of_filter|Hin]%elem_of_app;
      rewrite Hs; apply elem_of_app; [by left|by right].
  - intros k ([k' v] & Hk & Hin)%list_elem_of_fmap Hout. simpl in Hk. subst k'.
    rewrite H3. rewrite decide_True; [done|].
    rewrite Hs in Hin. apply elem_of_app in Hin as [Hin|Hin].
    + destruct (expired (now w) v) eqn:Hex.
      * apply (list_elem_of_fmap_2 fst _ (k, v)). by apply list_elem_of_filter.
      * exfalso. apply Hout. apply (list_elem_of_fmap_2 fst _ (k, v)).
        apply elem_of_app. left. by apply list_elem_of_filter.
    + exfalso. apply Hout. apply (list_elem_of_fmap_2 fst _ (k, v)).
      apply elem_of_app. by right.
  - intros k. rewrite H3. destruct (decide _); [by intros [? ?]|done].
Qed.

Lemma handle_keeps_NoDup w ev s :
  NoDup (sessions s).*1 → NoDup (sessions (final (handle w ev s))).*1.
Proof.
  intros Hnd.
  assert (Hserved : ev ≠ Connect → ev ≠ Cleanup →
                    NoDup (sessions (final (handle w ev s))).*1).
  { intros Hc Hl. by rewrite (served_keys s _ (handle_served w ev s Hc Hl)). }
  destruct ev; try (by apply Hserved).
  - simpl. by apply dict_set_keys.
  - simpl. apply (cleanup_old_sessions_preserves w (λ s, NoDup (sessions s).*1));
      [done| |done].
    intros s1 k Hs1. simpl. by apply dict_remove_keys.
Qed.

Lemma cleanup_keeps_tidy dirs w s :
  NoDup (sessions s).*1 → tidy dirs s → tidy dirs (final (cleanup_old_sessions w s)).
Proof.
  intros Hnd [Hsid Hdir]. destruct (sweep_outcome w s Hnd) as (Hsub & Hgone & Hold).
  split.
  - intros k v Hin. apply Hsid. by apply Hsub.
  - intros k Hk.
    destruct (decide (k ∈ (sessions (final (cleanup_old_sessions w s))).*1))
      as [?|Hout]; [by left|].
    destruct (Hdir k (Hold k Hk)) as [Hin|Hd]; [|by right].
    rewrite (Hgone k Hin Hout) in Hk. by destruct Hk.
Qed.

Lemma handle_keeps_tidy dirs w ev s :
  NoDup (sessions s).*1 → tidy dirs s → tidy dirs (final (handle w ev s)).
Proof.
  intros Hnd Ht.
  assert (Hact : ev ≠ Connect → ev ≠ Cleanup → tidy dirs (final (handle w ev s))).
  { intros Hc Hl. apply (activity_keeps w (tidy dirs)); try done.
    - intros s1 image_data n i k session_data [Hsid Hdir] Hfind.
      apply find_session_elem in Hfind as Hin.
      rewrite (Hsid _ _ Hin). split; [done|]. intros k'. simpl.
      destruct (decide (k = k')) as [<-|Hne].
      + intros _. left. by apply (list_elem_of_fmap_2 fst _ (k, session_data)).
      + rewrite lookup_insert_ne by done. apply Hdir.
    - intros s1 i kv p [Hsid Hdir] _ _. split; simpl.
      + intros k v (v0 & Hin & [->| ->])%elem_of_alter_session; simpl; by apply Hsid.
      + intros k Hk. rewrite alter_session_keys. by apply Hdir. }
  destruct ev; try (by apply Hact).
  - destruct Ht as [Hsid Hdir]. split; simpl.
    + intros k v [[= -> ->]|Hin]%elem_of_dict_set; [done|]. by apply Hsid.
    + intros k Hk. rewrite dict_set_fst.
      destruct (Hdir k Hk) as [Hin|Hd]; [left|by right].
      destruct (dict_has _ _); [done|]. apply elem_of_app. by left.
  - by apply cleanup_keeps_tidy.
Qed.

(** X8. The server makes a directory under [temp_pages/] only for a session
    of its table and leaves none of its own behind.  From any state whose
    table has one record per session id, each under its own [sid] (the
    empty table of a server just started or restarted is one), and after
    any events, in any worlds: every session is stored under its own [sid],
    and every directory under [temp_pages/] belongs to a session of the
    table or was there already at the start. *)
Theorem directories_are_of_sessions_or_older (evs : list (world * event)) (s0 : state) :
  NoDup (sessions s0).*1 →
  (∀ k v, (k, v) ∈ sessions s0 → sid v = k) →
  let s := (run evs s0).1 in
  (∀ k v, (k, v) ∈ sessions s → sid v = k) ∧
  (∀ k, is_Some (temp_pages s !! k) →
        k ∈ (sessions s).*1 ∨ is_Some (temp_pages s0 !! k)).
Proof.
  intros Hnd Hsid s. subst s.
  assert (H : ∀ s, NoDup (sessions s).*1 → tidy (temp_pages s0) s →
                   tidy (temp_pages s0) (run evs s).1).
  { induction evs as [|[w ev] evs IH]; intros s Hs Ht; [exact Ht|].
    simpl. apply IH; [by apply handle_keeps_NoDup|by apply handle_keeps_tidy]. }
  apply H; [exact Hnd|]. split; [exact Hsid|]. intros k Hk. by right.
Qed.

Lemma directories_are_of_sessions_or_older_witness :
  let evs := [(sample_world 1000, Connect); (sample_world 1001, sample_load);
              (sample_world 1002, request 1); (sample_world 1003, Connect)] in
  let s := (run evs restarted_state).1 in
  file_at "session_900_0a1b2c3d" "page_1.png" s = Some "OLD" ∧
  file_at "session_1000_0a1b2c3d" "page_1.png" s = Some "PNG" ∧
  (sessions s).*1 = ["session_1000_0a1b2c3d"; "session_1003_0a1b2c3d"] ∧
  ∀ k, is_Some (temp_pages s !! k) →
       k ∈ (sessions s).*1 ∨ is_Some (temp_pages restarted_state !! k).
Proof.
  intros evs s. split; [vm_compute; reflexivity|]. split; [vm_compute; reflexivity|].
  split; [vm_compute; reflexivity|].
  apply (directories_are_of_sessions_or_older evs restarted_state).
  - simpl. constructor.
  - simpl. intros k v Hin. by apply elem_of_nil in Hin.
Defined.

(** X9. Once a sweep has removed a session, none of its page URLs resolves
    any more: the route [/pages/<session_id>/<filename>] answers 404 for
    every file name. *)
Theorem swept_session_pages_are_gone (w : world) (s : state)
    (send_error : option exn) (session_id filename : string) :
  NoDup (sessions s).*1 →
  session_id ∈ (sessions s).*1 →
  session_id ∉ (sessions (final (cleanup_old_sessions w s))).*1 →
  result (serve_page_image send_error session_id filename
            (final (cleanup_old_sessions w s)))
  = inr (Text "File not found", 404).
Proof.
  intros Hnd Hin Hout. destruct (sweep_outcome w s Hnd) as (_ & Hgone & _).
  rewrite serve_page_image_run, (Hgone _ Hin Hout). done.
Qed.

Lemma swept_session_pages_are_gone_witness :
  let s' := final (cleanup_old_sessions (sample_world 3000) sweep_state) in
  result (serve_page_image None "session_1000_0a1b2c3d" "page_1.png" sweep_state)
  = inr (SentFile "PNG" "image/png", 200) ∧
  result (serve_page_image None "session_1000_0a1b2c3d" "page_1.png" s')
  = inr (Text "File not found", 404).
Proof.
  intros s'. split; [vm_compute; reflexivity|].
  apply (swept_session_pages_are_gone (sample_world 3000) sweep_state None).
  - apply (bool_decide_unpack _). vm_compute. reflexivity.
  - apply (bool_decide_unpack _). vm_compute. reflexivity.
  - apply (bool_decide_unpack _). vm_compute. reflexivity.
Defined.

(** * Requests that fail *)

(** X10. When the renderer fails for a requested page (the page cannot be
    loaded or rasterised), the client gets one [pageData] error carrying
    the renderer's message, no file is written and the state is left as it
    was. *)
Theorem failed_render_leaves_nothing (w : world) (data : request_page_data)
    (s : state) (session_data : session) (pdf_path : string) (info : pdf_info)
    (e : exn) :
  bound_session s = Some (session_data, pdf_path) →
  pdf_cache s !! pdf_path = Some info →
  result (render_page w (document info) (pageNum data)
            (quality_or "high" (page_options data)) s) = inl e →
  final (handle_request_page w data s) = s ∧
  emitted (trace (handle_request_page w data s)) = [("pageData", error_payload e)] ∧
  ∀ session_id filename, WriteFile session_id filename ∉ trace (handle_request_page w data s).
Proof.
  intros Hb Hc Hr.
  assert (Hrun : ∃ t, render_page w (document info) (pageNum data)
                        (quality_or "high" (page_options data)) s = (inl e, s, t) ∧
                      emitted t = [] ∧ ∀ k f, WriteFile k f ∉ t).
  { rewrite render_page_run in Hr |- *. unfold result in Hr.
    destruct (load_page w _ _) as [e'|pg]; simpl in Hr.
    - injection Hr as ->. eexists. split; [done|]. split; [done|].
      intros k f Hin. repeat (apply elem_of_cons in Hin as [?|Hin]; [done|]).
      by apply elem_of_nil in Hin.
    - destruct (get_pixmap w pg _) as [e'|pix]; simpl in Hr; [|done].
      injection Hr as ->. eexists. split; [done|]. split; [done|].
      intros k f Hin. repeat (apply elem_of_cons in Hin as [?|Hin]; [done|]).
      by apply elem_of_nil in Hin. }
  destruct Hrun as (t & Hrun & Ht & Hw).
  assert (Hall : handle_request_page w data s
    = (inr tt, s,
       (Log INFO ("Loading PDF from cache: " +:+ pdf_path) :: t)
       ++ [Log ERROR ("Error rendering page: " +:+ e);
           Emit "pageData" (error_payload e)])).
  { unfold handle_request_page, try_except. rewrite bind_get, Hb.
    rewrite (run_bind _ _ _ _ _ _ (load_pdf_hit w _ _ _ Hc)).
    rewrite (run_bind_raise _ _ _ _ _ _ Hrun). reflexivity. }
  rewrite Hall. unfold final, trace; simpl. split; [done|]. split.
  - by rewrite emitted_app, Ht.
  - intros k f [Hin|Hin]%elem_of_cons; [done|].
    apply elem_of_app in Hin as [Hin|Hin]; [by apply (Hw k f)|].
    repeat (apply elem_of_cons in Hin as [?|Hin]; [done|]).
    by apply elem_of_nil in Hin.
Qed.

Lemma failed_render_leaves_nothing_witness :
  emitted (trace (handle_request_page (sample_world 1002)
                    {| pageNum := 9; page_options := None |} viewing_state))
  = [("pageData", error_payload "page not in document")].
Proof.
  destruct (failed_render_leaves_nothing (sample_world 1002)
              {| pageNum := 9; page_options := None |} viewing_state
              {| sid := "session_1000_0a1b2c3d"; current_pdf := Some "pdfs/sample.pdf";
                 last_activity := 1000 |}
              "pdfs/sample.pdf" (info_of "pdfs/sample.pdf" sample_doc)
              "page not in document") as (_ & He & _).
  - vm_compute. reflexivity.
  - vm_compute. reflexivity.
  - vm_compute. reflexivity.
  - exact He.
Defined.

(** X11. With no session in the table, or with the first session not bound
    to a document, [requestPage] and [preloadPages] answer 'No PDF loaded'
    and do nothing else: no file is opened, no page rendered, nothing is
    written and the state is left as it was. *)
Theorem no_document_no_work (w : world) (s : state) :
  bound_session s = None →
  (∀ data, handle_request_page w data s
           = (inr tt, s, [Emit "pageData" (error_payload "No PDF loaded")])) ∧
  (∀ data, handle_preload_pages w data s
           = (inr tt, s, [Emit "pagesPreloaded" (error_payload "No PDF loaded")])).
Proof.
  intros Hb. split; intros data.
  - unfold handle_request_page, try_except. by rewrite bind_get, Hb.
  - unfold handle_preload_pages, try_except. by rewrite bind_get, Hb.
Qed.

Lemma no_document_no_work_witness :
  let s := (run [(sample_world 1000, Connect)] initial_state).1 in
  bound_session initial_state = None ∧ bound_session s = None ∧
  trace (handle_request_page (sample_world 1001)
           {| pageNum := 1; page_options := None |} s)
  = [Emit "pageData" (error_payload "No PDF loaded")].
Proof.
  intros s.
  assert (H : bound_session s = None) by (vm_compute; reflexivity).
  split; [reflexivity|]. split; [exact H|].
  destruct (no_document_no_work (sample_world 1001) s H) as [Hreq _].
  by rewrite Hreq.
Defined.

(** X12. A load that fails because the document cannot be opened is not
    remembered: the client gets [success: False] with the message of the
    exception, the state is left as it was, and the next [loadPDF] of the
    same id opens the file again and succeeds if the file then opens. *)
Theorem failed_load_is_retried (w w' : world) (data : load_pdf_data) (s : state)
    (e : exn) (doc : Document) :
  let pdf_path := pdf_path_of (pdfId data) in
  path_exists w pdf_path = true →
  pdf_cache s !! pdf_path = None →
  fitz_open w pdf_path = inl e →
  path_exists w' pdf_path = true →
  fitz_open w' pdf_path = inr doc →
  let s1 := final (handle_load_pdf w data s) in
  s1 = s ∧
  emitted (trace (handle_load_pdf w data s))
  = [("pdfLoaded", JObj [("success", JBool false); ("error", JStr e)])] ∧
  FitzOpen pdf_path ∈ trace (handle_load_pdf w' data s1) ∧
  emitted (trace (handle_load_pdf w' data s1))
  = [("pdfLoaded",
      JObj [("success", JBool true); ("pdfId", JStr (pdfId data));
            ("totalPages", JInt (page_count doc));
            ("metadata", metadata_json (metadata_of doc))])].
Proof.
  intros pdf_path Hx Hc He Hx' Ho s1.
  assert (H1 : handle_load_pdf w data s
    = (inr tt, s,
       [FitzOpen pdf_path; Log ERROR ("Error loading PDF: " +:+ e);
        Log ERROR ("Error loading PDF: " +:+ e);
        Emit "pdfLoaded" (JObj [("success", JBool false); ("error", JStr e)])])).
  { unfold handle_load_pdf, try_except. fold pdf_path. rewrite Hx. simpl.
    pose proof (load_pdf_miss w _ _ Hc) as Hl. rewrite He in Hl.
    by rewrite (run_bind_raise _ _ _ _ _ _ Hl). }
  subst s1. rewrite H1. unfold final, trace at 1; simpl.
  split; [done|]. split; [done|].
  pose proof (load_pdf_miss w' _ _ Hc) as Hl. rewrite Ho in Hl. simpl in Hl.
  unfold handle_load_pdf, try_except. fold pdf_path. rewrite Hx'. simpl.
  rewrite (run_bind _ _ _ _ _ _ Hl). rewrite bind_get.
  destruct (find_session _) as [[i kv]|]; unfold trace; simpl; (split; [by left|done]).
Qed.

Lemma failed_load_is_retried_witness :
  let broken := stuck_world 1001 "" in
  let w := {| now := 1001; urandom_hex := urandom_hex broken;
              path_exists := path_exists broken;
              fitz_open := λ _, inl "cannot open broken document";
              load_page := load_page broken; get_pixmap := get_pixmap broken;
              png_encode := png_encode broken; b64encode := b64encode broken;
              write_error := write_error broken; rmtree_error := rmtree_error broken |} in
  let s := (run [(sample_world 1000, Connect)] initial_state).1 in
  final (handle_load_pdf w {| pdfId := "sample" |} s) = s ∧
  FitzOpen "pdfs/sample.pdf"
  ∈ trace (handle_load_pdf (sample_world 1002) {| pdfId := "sample" |}
             (final (handle_load_pdf w {| pdfId := "sample" |} s))).
Proof.
  intros broken w s.
  destruct (failed_load_is_retried w (sample_world 1002) {| pdfId := "sample" |} s
              "cannot open broken document" sample_doc)
    as (H1 & _ & H3 & _); try reflexivity.
  split; [exact H1|exact H3].
Defined.

(** * Preloading that fails midway *)

Lemma bind_ext {A B} (m : M A) (f g : A → M B) s :
  (∀ a s1, f a s1 = g a s1) → bind m f s = bind m g s.
Proof.
  intros H. unfold bind. destruct (m s) as [[[e|a] s1] t1]; [done|]. by rewrite H.
Qed.

Section PreloadFails.

Context (w : world).

Lemma preload_loop_app info session_data quality l1 l2 : ∀ pages s,
  preload_loop w info session_data quality (l1 ++ l2) pages s
  = bind (preload_loop w info session_data quality l1 pages)
         (λ pages', preload_loop w info session_data quality l2 pages') s.
Proof.
  induction l1 as [|n l1 IH]; intros pages s; simpl.
  { by rewrite bind_ret_l. }
  destruct ((1 <=? n) && (n <=? total_pages info)); [|apply IH].
  rewrite bind_assoc. apply bind_ext. intros page s1.
  rewrite bind_assoc. apply bind_ext. intros image_url s2. apply IH.
Qed.

(** The loop over pages that all go well: what is on disk afterwards. *)
Lemma preload_loop_stores info session_data quality page_nums : ∀ pages s,
  pages_go_well w info session_data quality page_nums →
  ∃ pages' s' t,
    preload_loop w info session_data quality page_nums pages s = (inr pages', s', t) ∧
    emitted t = [] ∧
    (∀ k f, stored k f s → stored k f s') ∧
    (∀ m, m ∈ page_nums → in_document info m →
          stored (sid session_data) (page_filename m) s').
Proof.
  induction page_nums as [|n rest IH]; intros pages s Hok; simpl.
  { exists pages, s, []. repeat split; [done|]. by intros m ?%elem_of_nil. }
  assert (Hrest : pages_go_well w info session_data quality rest).
  { intros m Hm. apply Hok. by right. }
  destruct ((1 <=? n) && (n <=? total_pages info)) eqn:Hn.
  - assert (Hin : in_document info n) by (unfold in_document; lia).
    destruct (Hok n) as [(page & pix & Hpage & Hpix) Hw]; [by left|done|].
    pose proof (render_page_run w (document info) n quality s) as Hr.
    rewrite Hpage, Hpix in Hr. rewrite (run_bind _ _ _ _ _ _ Hr).
    pose proof (save_page_image_run w (image_data (rendered w n quality pix))
                  (sid session_data) n s) as Hs.
    rewrite Hw in Hs. rewrite (run_bind _ _ _ _ _ _ Hs).
    edestruct (IH (pages ++ [preloaded_entry (rendered w n quality pix)
                               ("/pages/" +:+ sid session_data +:+ "/" +:+ page_filename n)])
                 (saved (image_data (rendered w n quality pix)) (sid session_data) n s)
                 Hrest)
      as (pages' & s' & t & -> & Ht & Hkeep & Hnew).
    eexists pages', s', _. simpl. split; [done|]. split; [exact Ht|]. split.
    + intros k f Hkf. by apply Hkeep, saved_stored.
    + intros m [->|Hm]%elem_of_cons Hdoc; [|by apply Hnew].
      apply Hkeep. unfold stored. rewrite saved_lookup. by eexists.
  - destruct (IH pages s Hrest) as (pages' & s' & t & -> & Ht & Hkeep & Hnew).
    exists pages', s', t. repeat split; [done..|].
    intros m [->|Hm]%elem_of_cons Hdoc; [|by apply Hnew].
    unfold in_document in Hdoc. lia.
Qed.

End PreloadFails.

(** X13. When the renderer fails for a page of a [preloadPages] request
    after other pages went well, the client gets one [pagesPreloaded] error
    and no page list, yet the pages rendered before the failure are on
    disk. *)
Theorem failed_preload_keeps_earlier_files (w : world) (data : preload_pages_data)
    (s : state) (session_data : session) (pdf_path : string) (info : pdf_info)
    (before after_it : list Z) (n : Z) (e : exn) :
  let quality := quality_or "medium" (preload_options data) in
  bound_session s = Some (session_data, pdf_path) →
  pdf_cache s !! pdf_path = Some info →
  pageNums data = before ++ n :: after_it →
  pages_go_well w info session_data quality before →
  in_document info n →
  (∀ s1, result (render_page w (document info) n quality s1) = inl e) →
  let s' := final (handle_preload_pages w data s) in
  emitted (trace (handle_preload_pages w data s))
  = [("pagesPreloaded", error_payload e)] ∧
  ∀ m, m ∈ before → in_document info m →
       stored (sid session_data) (page_filename m) s'.
Proof.
  intros quality Hb Hc Hnums Hok Hn Hfail s'.
  destruct (preload_loop_stores w info session_data quality before [] s Hok)
    as (pages' & s1 & t1 & Hl & Ht1 & _ & Hnew).
  assert (Hr : ∃ t2, render_page w (document info) n quality s1 = (inl e, s1, t2) ∧
                     emitted t2 = []).
  { specialize (Hfail s1). pose proof (render_page_final w (document info) n quality s1) as Hf.
    pose proof (render_page_quiet w (document info) n quality s1) as Hq.
    unfold result, final, trace in *.
    destruct (render_page w _ _ _ s1) as [[r s2] t2]; simpl in *. subst.
    by exists t2. }
  destruct Hr as (t2 & Hr & Ht2).
  assert (Hloop : preload_loop w info session_data quality (pageNums data) [] s
                  = (inl e, s1, t1 ++ t2)).
  { rewrite Hnums, preload_loop_app, (run_bind _ _ _ _ _ _ Hl). simpl.
    unfold in_document in Hn.
    replace ((1 <=? n) && (n <=? total_pages info)) with true by lia.
    by rewrite (run_bind_raise _ _ _ _ _ _ Hr). }
  assert (Hall : handle_preload_pages w data s
    = (inr tt, s1,
       (Log INFO ("Loading PDF from cache: " +:+ pdf_path) :: t1 ++ t2)
       ++ [Log ERROR ("Error preloading pages: " +:+ e);
           Emit "pagesPreloaded" (error_payload e)])).
  { unfold handle_preload_pages, try_except. rewrite bind_get, Hb.
    rewrite (run_bind _ _ _ _ _ _ (load_pdf_hit w _ _ _ Hc)).
    fold quality. by rewrite (run_bind_raise _ _ _ _ _ _ Hloop). }
  subst s'. rewrite Hall. unfold final, trace; simpl. split; [|exact Hnew].
  by rewrite !emitted_app, Ht1, Ht2.
Qed.

Lemma failed_preload_keeps_earlier_files_witness :
  let data := {| pageNums := [1; 2; 3]; preload_options := None |} in
  let s' := final (handle_preload_pages (torn_world 1002) data viewing_state) in
  emitted (trace (handle_preload_pages (torn_world 1002) data viewing_state))
  = [("pagesPreloaded", error_payload "cannot rasterise page")] ∧
  stored "session_1000_0a1b2c3d" "page_1.png" s'.
Proof.
  intros data s'.
  destruct (failed_preload_keeps_earlier_files (torn_world 1002) data viewing_state
              {| sid := "session_1000_0a1b2c3d"; current_pdf := Some "pdfs/sample.pdf";
                 last_activity := 1000 |}
              "pdfs/sample.pdf" (info_of "pdfs/sample.pdf" sample_doc)
              [1] [3] 2 "cannot rasterise page") as [He Hst].
  - vm_compute. reflexivity.
  - vm_compute. reflexivity.
  - reflexivity.
  - intros m ->%list_elem_of_singleton _. split; [|reflexivity].
    eexists _, _. split; reflexivity.
  - unfold in_document. simpl. lia.
  - intros s1. rewrite render_page_run. reflexivity.
  - split; [exact He|]. apply (Hst 1); [by left|]. unfold in_document. simpl. lia.
Defined.

(** * More on the sweep *)

Section SweepMore.

Context (w : world).

Lemma cleanup_loop_all_fresh current_time items s :
  Forall (fresh current_time) items →
  cleanup_loop w current_time items s = (inr tt, s, []).
Proof.
  induction 1 as [|[k v] items Hkv _ IH]; [done|].
  rewrite cleanup_loop_cons. unfold fresh in Hkv. simpl in Hkv. by rewrite Hkv.
Qed.

(** One sweep of a table in which [kv] blocks: [kv] and the sessions after
    it stay, with their directories. *)
Lemma blocked_sweep s pre kv rest :
  NoDup (sessions s).*1 →
  sessions s = pre ++ kv :: rest →
  blocks w (temp_pages s) (now w) kv →
  let s' := final (cleanup_old_sessions w s) in
  NoDup (sessions s').*1 ∧
  (∃ pre', sessions s' = pre' ++ kv :: rest) ∧
  (∀ kv', kv' ∈ kv :: rest → temp_pages s' !! kv'.1 = temp_pages s !! kv'.1).
Proof.
  intros Hnd Hs Hkv s'. subst s'. split.
  { apply (cleanup_old_sessions_preserves w (λ s, NoDup (sessions s).*1));
      [done| |done]. intros s1 k Hs1. simpl. by apply dict_remove_keys. }
  rewrite cleanup_old_sessions_final.
  destruct (split_at_block w (temp_pages s) (now w) pre)
    as (done & tail & Hpre & Hdone & Htail).
  destruct (cleanup_loop_run w (now w) done (tail ++ kv :: rest) [] s)
    as (H1 & _ & H3 & _).
  - simpl. by rewrite app_assoc, <- Hpre, <- Hs.
  - simpl. by rewrite app_assoc, <- Hpre.
  - done.
  - right. destruct Htail as [->|(kv' & rest' & -> & Hb)].
    + by exists kv, rest.
    + by exists kv', (rest' ++ kv :: rest).
  - rewrite app_assoc, <- Hpre, <- Hs in H1, H3. simpl in H1. split.
    + exists (filter (fresh (now w)) done ++ tail). by rewrite <- app_assoc.
    + intros kv' Hin. rewrite H3. rewrite decide_False; [done|].
      intros ([k v] & Hk & [_ Hin']%list_elem_of_filter)%list_elem_of_fmap.
      simpl in Hk. rewrite Hs, fmap_app in Hnd.
      apply NoDup_app in Hnd as (_ & Hd & _). apply (Hd k).
      * apply (list_elem_of_fmap_2 fst _ (k, v)). rewrite Hpre.
        apply elem_of_app. by left.
      * rewrite <- Hk. by apply list_elem_of_fmap_2.
Qed.

End SweepMore.

(** X14. A session whose directory cannot be removed stops every sweep: as
    long as it is expired and [shutil.rmtree] fails for its directory, no
    number of sweeps removes it or any session after it in the table, or
    any of their directories. *)
Theorem blocked_session_stops_every_sweep (ws : list world) (s : state)
    (pre rest : list (string * session)) (kv : string * session) :
  NoDup (sessions s).*1 →
  sessions s = pre ++ kv :: rest →
  is_Some (temp_pages s !! kv.1) →
  Forall (λ w, stale (now w) kv ∧ is_Some (rmtree_error w kv.1)) ws →
  let s' := (run (sweeps ws) s).1 in
  (∃ pre', sessions s' = pre' ++ kv :: rest) ∧
  (∀ kv', kv' ∈ kv :: rest → temp_pages s' !! kv'.1 = temp_pages s !! kv'.1).
Proof.
  intros Hnd Hs Hdir Hws. revert s pre Hnd Hs Hdir.
  induction Hws as [|w ws [Hst Herr] _ IH]; intros s pre Hnd Hs Hdir; simpl.
  { split; [by exists pre|done]. }
  destruct (blocked_sweep w s pre kv rest Hnd Hs) as (Hnd' & (pre' & Hs') & Ht).
  { by split. }
  destruct (IH (final (cleanup_old_sessions w s)) pre' Hnd' Hs') as [Hs'' Ht''].
  { rewrite (Ht kv); [done|by left]. }
  split; [exact Hs''|]. intros kv' Hin. by rewrite Ht'', Ht.
Qed.

Lemma blocked_session_stops_every_sweep_witness :
  let ws := [stuck_world 5000 "session_1000_0a1b2c3d";
             stuck_world 5300 "session_1000_0a1b2c3d";
             stuck_world 5600 "session_1000_0a1b2c3d"] in
  (sessions (run (sweeps ws) crowded_state).1).*1
  = ["session_1000_0a1b2c3d"; "session_1001_0a1b2c3d"].
Proof.
  intros ws.
  pose (a := ("session_1000_0a1b2c3d",
              {| sid := "session_1000_0a1b2c3d";
                 current_pdf := Some "pdfs/sample.pdf"; last_activity := 1000 |})).
  pose (b := ("session_1001_0a1b2c3d",
              {| sid := "session_1001_0a1b2c3d";
                 current_pdf := None; last_activity := 1001 |})).
  destruct (blocked_session_stops_every_sweep ws crowded_state [] [b] a)
    as [(pre' & Hs) _].
  - apply (bool_decide_unpack _). vm_compute. reflexivity.
  - vm_compute. reflexivity.
  - apply (bool_decide_unpack _). vm_compute. reflexivity.
  - repeat constructor; by eexists.
  - vm_compute. reflexivity.
Defined.

(** X15. A sweep that finds no session older than 30 minutes (an empty
    table too) does nothing at all: no directory is touched, nothing is
    logged and the state is left as it was. *)
Theorem sweep_of_fresh_table_does_nothing (w : world) (s : state) :
  Forall (fresh (now w)) (sessions s) →
  cleanup_old_sessions w s = (inr tt, s, []).
Proof.
  intros H. unfold cleanup_old_sessions, try_except.
  by rewrite bind_get, (cleanup_loop_all_fresh w _ _ s H).
Qed.

Lemma sweep_of_fresh_table_does_nothing_witness :
  cleanup_old_sessions (sample_world 2800) viewing_state
  = (inr tt, viewing_state, []) ∧
  cleanup_old_sessions (sample_world 9999) initial_state = (inr tt, initial_state, []).
Proof.
  split.
  - apply sweep_of_fresh_table_does_nothing.
    apply (bool_decide_unpack _). vm_compute. reflexivity.
  - apply sweep_of_fresh_table_does_nothing. constructor.
Defined.

(** * The info route and the socket share the cache *)

Lemma handle_load_pdf_hit w data s info :
  path_exists w (pdf_path_of (pdfId data)) = true →
  pdf_cache s !! pdf_path_of (pdfId data) = Some info →
  trace (handle_load_pdf w data s)
  = [Log INFO ("Loading PDF from cache: " +:+ pdf_path_of (pdfId data));
     Emit "pdfLoaded"
       (JObj [("success", JBool true); ("pdfId", JStr (pdfId data));
              ("totalPages", JInt (total_pages info));
              ("metadata", metadata_json (metadata info))]);
     Log INFO ("PDF loaded: " +:+ pdfId data)].
Proof.
  intros Hx Hc. unfold handle_load_pdf, try_except. rewrite Hx. simpl.
  rewrite (run_bind _ _ _ _ _ _ (load_pdf_hit w _ _ _ Hc)), bind_get.
  by destruct (find_session (sessions s)) as [[i kv]|].
Qed.

(** X16. A document served by [GET /api/pdf/<id>/info] with status 200 is
    in the cache afterwards: a later [loadPDF] of the same id, while the
    file exists, does not open it again and answers with the page count and
    the metadata the info route gave. *)
Theorem info_route_warms_cache (w w' : world) (pdf_id : string) (s : state)
    (body : json) :
  result (get_pdf_info w pdf_id s) = inr (body, 200) →
  path_exists w' (pdf_path_of pdf_id) = true →
  let s1 := final (get_pdf_info w pdf_id s) in
  ∃ info,
    body = JObj [("success", JBool true); ("id", JStr pdf_id);
                 ("total_pages", JInt (total_pages info));
                 ("metadata", metadata_json (metadata info))] ∧
    (∀ p, FitzOpen p ∉ trace (handle_load_pdf w' {| pdfId := pdf_id |} s1)) ∧
    emitted (trace (handle_load_pdf w' {| pdfId := pdf_id |} s1))
    = [("pdfLoaded",
        JObj [("success", JBool true); ("pdfId", JStr pdf_id);
              ("totalPages", JInt (total_pages info));
              ("metadata", metadata_json (metadata info))])].
Proof.
  intros Hr Hx' s1. subst s1. revert Hr.
  unfold get_pdf_info, try_except, result, final.
  destruct (negb (path_exists w (pdf_path_of pdf_id))); [done|].
  pose proof (load_pdf_cached w (pdf_path_of pdf_id) s) as Hc.
  unfold bind, result, final in *.
  destruct (load_pdf w (pdf_path_of pdf_id) s) as [[[e|info] s1] t1]; simpl in *; [done|].
  intros [= <-]. exists info. split; [done|].
  rewrite (handle_load_pdf_hit w' {| pdfId := pdf_id |} s1 info Hx' (Hc info eq_refl)).
  split; [|done]. intros p Hin.
  repeat (apply elem_of_cons in Hin as [?|Hin]; [done|]). by apply elem_of_nil in Hin.
Qed.

Lemma info_route_warms_cache_witness :
  let s1 := final (get_pdf_info (sample_world 1000) "sample" initial_state) in
  trace (get_pdf_info (sample_world 1000) "sample" initial_state)
  = [FitzOpen "pdfs/sample.pdf"; Log INFO "PDF loaded: pdfs/sample.pdf (3 pages)"] ∧
  ∀ p, FitzOpen p ∉ trace (handle_load_pdf (sample_world 1001) {| pdfId := "sample" |} s1).
Proof.
  intros s1. split; [vm_compute; reflexivity|].
  destruct (info_route_warms_cache (sample_world 1000) (sample_world 1001) "sample"
              initial_state
              (JObj [("success", JBool true); ("id", JStr "sample");
                     ("total_pages", JInt 3);
                     ("metadata", metadata_json (metadata_of sample_doc))]))
    as (info & _ & Hno & _).
  - vm_compute. reflexivity.
  - reflexivity.
  - exact Hno.
Defined.

(** * Session ids *)

Lemma string_app_length (a b : string) :
  String.length (a +:+ b) = (String.length a + String.length b)%nat.
Proof. induction a as [|c a IH]; simpl; [done|]. by rewrite IH. Qed.

Lemma string_app_inj (a b x y : string) :
  String.length a = String.length b → a +:+ x = b +:+ y → a = b ∧ x = y.
Proof.
  revert b. induction a as [|c a IH]; intros [|d b]; simpl; try done.
  intros [= Hlen] [= -> Heq]. destruct (IH b Hlen Heq) as [-> ->]. done.
Qed.

(** X17. Two connections are given the same session id only if they
    connect in the same second and draw the same random suffix (the suffix
    always has the same length, 8 hexadecimal digits). *)
Theorem session_id_tells_time_and_suffix (w1 w2 : world) (s1 s2 : state) :
  String.length (urandom_hex w1) = String.length (urandom_hex w2) →
  emitted (trace (handle_connect w1 s1)) = emitted (trace (handle_connect w2 s2)) →
  now w1 = now w2 ∧ urandom_hex w1 = urandom_hex w2.
Proof.
  intros Hlen Heq.
  change (emitted (trace (handle_connect w1 s1)))
    with [("connected",
           JObj [("session_id",
                  JStr ("session_" +:+ pretty (now w1) +:+ "_" +:+ urandom_hex w1));
                 ("message", JStr "Connected to PDF viewer server")])] in Heq.
  change (emitted (trace (handle_connect w2 s2)))
    with [("connected",
           JObj [("session_id",
                  JStr ("session_" +:+ pretty (now w2) +:+ "_" +:+ urandom_hex w2));
                 ("message", JStr "Connected to PDF viewer server")])] in Heq.
  assert (Hid : "session_" +:+ pretty (now w1) +:+ "_" +:+ urandom_hex w1
                = "session_" +:+ pretty (now w2) +:+ "_" +:+ urandom_hex w2)
    by congruence.
  apply (string_app_inj "session_" "session_") in Hid as [_ Hid]; [|reflexivity].
  assert (Hl := f_equal String.length Hid).
  rewrite !string_app_length in Hl.
  apply string_app_inj in Hid as [Ht Hh]; [|lia].
  apply (string_app_inj "_" "_") in Hh as [_ Hh]; [|reflexivity].
  split; [|exact Hh]. by apply (inj pretty).
Qed.

Lemma session_id_tells_time_and_suffix_witness :
  emitted (trace (handle_connect (sample_world 1000) initial_state))
  = emitted (trace (handle_connect (stuck_world 1000 "x") viewing_state)) ∧
  now (sample_world 1000) = now (stuck_world 1000 "x").
Proof.
  assert (H : emitted (trace (handle_connect (sample_world 1000) initial_state))
              = emitted (trace (handle_connect (stuck_world 1000 "x") viewing_state)))
    by (vm_compute; reflexivity).
  split; [exact H|].
  by destruct (session_id_tells_time_and_suffix (sample_world 1000)
                 (stuck_world 1000 "x") initial_state viewing_state eq_refl H).
Defined.

Lemma dict_set_fresh {V} (k : string) (v : V) d :
  k ∉ d.*1 → dict_set k v d = d ++ [(k, v)].
Proof.
  induction d as [|[k' v'] d IH]; [done|]. simpl.
  intros Hk. destruct (decide (k' = k)) as [->|Hne].
  - exfalso. apply Hk. by left.
  - rewrite IH; [done|]. intros Hin. apply Hk. by right.
Qed.

Lemma dict_set_present {V} (k : string) (v : V) d :
  NoDup d.*1 → k ∈ d.*1 →
  dict_set k v d = (λ kv, if decide (kv.1 = k) then (k, v) else kv) <$> d.
Proof.
  induction d as [|[k' v'] d IH].
  { by intros _ ?%elem_of_nil. }
  rewrite !fmap_cons. cbn [dict_set fst snd]. intros [Hk' Hnd]%NoDup_cons Hin.
  destruct (decide (k' = k)) as [->|Hne].
  - f_equal. symmetry. apply list_eq. intros i. rewrite list_lookup_fmap.
    destruct (d !! i) as [[k1 v1]|] eqn:Hi; [|done]. simpl.
    rewrite decide_False; [done|]. intros ->. apply Hk'.
    apply (list_elem_of_fmap_2 fst _ (k, v1)). by eapply list_elem_of_lookup_2.
  - f_equal. apply IH; [done|]. apply elem_of_cons in Hin as [?|?]; [congruence|done].
Qed.

(** X18. [connect] puts a new session last in the table, with no document
    and the current time; if its id is already there (same second, same
    random suffix), the session of that id is reset in place instead, so it
    loses its document, and the table does not grow.  The other sessions,
    the cache and the page files are left as they were. *)
Theorem connect_adds_or_resets (w : world) (s : state) :
  NoDup (sessions s).*1 →
  let session_id := "session_" +:+ pretty (now w) +:+ "_" +:+ urandom_hex w in
  let new := {| sid := session_id; current_pdf := None; last_activity := now w |} in
  let s' := final (handle_connect w s) in
  sessions s'
  = (if dict_has session_id (sessions s)
     then (λ kv, if decide (kv.1 = session_id) then (session_id, new) else kv)
            <$> sessions s
     else sessions s ++ [(session_id, new)]) ∧
  pdf_cache s' = pdf_cache s ∧ temp_pages s' = temp_pages s.
Proof.
  intros Hnd session_id new s'. split; [|done]. subst s'. simpl.
  unfold dict_has. destruct (bool_decide _) eqn:Hin.
  - apply bool_decide_eq_true in Hin. by apply dict_set_present.
  - apply bool_decide_eq_false in Hin. by apply dict_set_fresh.
Qed.

Lemma connect_adds_or_resets_witness :
  sessions (final (handle_connect (sample_world 1000) viewing_state))
  = [("session_1000_0a1b2c3d",
      {| sid := "session_1000_0a1b2c3d"; current_pdf := None; last_activity := 1000 |})].
Proof.
  destruct (connect_adds_or_resets (sample_world 1000) viewing_state) as [Hs _].
  - apply (bool_decide_unpack _). vm_compute. reflexivity.
  - rewrite Hs. vm_compute. reflexivity.
Defined.

(** * More on sizes and on preloading *)

Lemma thumbnail_cases (iw ih box : Z) :
  (iw ≤ box ∧ ih ≤ box ∧ thumbnail (iw, ih) (box, box) = (iw, ih)) ∨
  ((box < iw ∨ box < ih) ∧
   ∃ r, thumbnail (iw, ih) (box, box) = (r, box) ∨
        thumbnail (iw, ih) (box, box) = (box, r)).
Proof.
  unfold thumbnail. cbv beta iota zeta.
  destruct ((iw <=? box) && (ih <=? box)) eqn:Hfit.
  { left. split; [lia|]. split; [lia|done]. }
  right. split; [lia|]. destruct (Qle_bool _ _); eexists; [by left|by right].
Qed.

(** X19. The size [render_page] gives a rasterised page: a page that fits
    the box keeps its size; a page that does not comes out with its longer
    side exactly the box; and rendering the result again at the same box
    would leave it as it is. *)
Theorem thumbnail_fits_or_fills (iw ih box : Z) :
  0 < iw → 0 < ih → 0 < box →
  let out := thumbnail (iw, ih) (box, box) in
  (iw ≤ box ∧ ih ≤ box → out = (iw, ih)) ∧
  (box < iw ∨ box < ih → Z.max out.1 out.2 = box) ∧
  thumbnail out (box, box) = out.
Proof.
  intros Hw Hh Hb out.
  pose proof (thumbnail_bounds iw ih box Hw Hh Hb) as (H1 & H2 & _).
  fold out in H1, H2.
  destruct (thumbnail_cases iw ih box) as [(Hfw & Hfh & Hfit)|(Hbig & r & Hr)];
    fold out in Hfit || fold out in Hr.
  - split; [done|]. split; [lia|]. by rewrite Hfit.
  - split; [lia|]. split.
    + intros _. destruct Hr as [Hr|Hr]; rewrite Hr in *; simpl in *; lia.
    + destruct out as [ow oh]. simpl in *. unfold thumbnail.
      replace ((ow <=? box) && (oh <=? box)) with true by lia. done.
Qed.

Lemma thumbnail_fits_or_fills_witness :
  0 < 1190 ∧ 0 < 1684 ∧ 0 < 1024 ∧
  thumbnail (1190, 1684) (1024, 1024) = (724, 1024) ∧
  thumbnail (thumbnail (1190, 1684) (1024, 1024)) (1024, 1024)
  = thumbnail (1190, 1684) (1024, 1024).
Proof.
  destruct (thumbnail_fits_or_fills 1190 1684 1024) as (_ & _ & Hidem); [lia..|].
  split; [lia|]. split; [lia|]. split; [lia|].
  split; [vm_compute; reflexivity|exact Hidem].
Defined.

Lemma preload_loop_nothing_in_range w info session_data quality page_nums pages s :
  Forall (λ n, ¬ in_document info n) page_nums →
  preload_loop w info session_data quality page_nums pages s = (inr pages, s, []).
Proof.
  induction 1 as [|n rest Hn _ IH]; [done|]. simpl.
  unfold in_document in Hn.
  replace ((1 <=? n) && (n <=? total_pages info)) with false by lia. exact IH.
Qed.

(** X20. A [preloadPages] request with an empty list, or with page numbers
    that are all outside the document, is answered with an empty [pages]
    list: the renderer is not called, nothing is written and the state is
    left as it was. *)
Theorem preload_of_nothing_in_range (w : world) (data : preload_pages_data) (s : state)
    (session_data : session) (pdf_path : string) (info : pdf_info) :
  bound_session s = Some (session_data, pdf_path) →
  pdf_cache s !! pdf_path = Some info →
  Forall (λ n, ¬ in_document info n) (pageNums data) →
  handle_preload_pages w data s
  = (inr tt, s,
     [Log INFO ("Loading PDF from cache: " +:+ pdf_path);
      Emit "pagesPreloaded" (JObj [("pages", JList [])]);
      Log INFO "Preloaded 0 pages"]).
Proof.
  intros Hb Hc Hout. unfold handle_preload_pages, try_except. rewrite bind_get, Hb.
  rewrite (run_bind _ _ _ _ _ _ (load_pdf_hit w _ _ _ Hc)).
  by rewrite (run_bind _ _ _ _ _ _
                (preload_loop_nothing_in_range w info session_data _ _ [] s Hout)).
Qed.

Lemma preload_of_nothing_in_range_witness :
  emitted (trace (handle_preload_pages (sample_world 1002)
                    {| pageNums := [0; 4; -2]; preload_options := None |}
                    viewing_state))
  = [("pagesPreloaded", JObj [("pages", JList [])])] ∧
  emitted (trace (handle_preload_pages (sample_world 1002)
                    {| pageNums := []; preload_options := None |} viewing_state))
  = [("pagesPreloaded", JObj [("pages", JList [])])].
Proof.
  pose (sd := {| sid := "session_1000_0a1b2c3d"; current_pdf := Some "pdfs/sample.pdf";
                 last_activity := 1000 |}).
  assert (Hb : bound_session viewing_state = Some (sd, "pdfs/sample.pdf"))
    by (vm_compute; reflexivity).
  assert (Hc : pdf_cache viewing_state !! "pdfs/sample.pdf"
               = Some (info_of "pdfs/sample.pdf" sample_doc))
    by (vm_compute; reflexivity).
  split.
  - rewrite (preload_of_nothing_in_range (sample_world 1002)
               {| pageNums := [0; 4; -2]; preload_options := None |}
               viewing_state sd "pdfs/sample.pdf" _ Hb Hc); [reflexivity|].
    repeat constructor; unfold in_document; simpl; lia.
  - rewrite (preload_of_nothing_in_range (sample_world 1002)
               {| pageNums := []; preload_options := None |}
               viewing_state sd "pdfs/sample.pdf" _ Hb Hc); [reflexivity|].
    constructor.
Defined.
